(** * The dev dashboard's process supervisor (SCRIPTS/dashboard.py)

    A shallow embedding of [ProjectManager]: the three dictionaries it
    owns ([processes], [statuses], [exit_codes]), the log files it opens,
    the signals it sends and the threads it starts.  Everything the
    supervisor learns from the operating system (does a path exist, does a
    port accept a connection, did a child exit, what did [lsof] print) is
    read from an [env] of observations, so that every method is a
    function that can be evaluated. *)

From Stdlib Require Import ZArith Lia.
From stdpp Require Import base option list strings gmap.

Local Open Scope string_scope.
Local Open Scope Z_scope.
Local Open Scope list_scope.

(** ** Configuration *)

Record project := {
  name : string;
  port : Z;
  dir : string;
  group : string }.

Definition mk (n : string) (p : Z) (d g : string) : project :=
  {| name := n; port := p; dir := d; group := g |}.

(** The [PROJECTS] dictionary, in insertion order (the order in which
    Python iterates over it). *)
Definition PROJECTS : list (string * project) :=
  [ ("welcome",   mk "Welcome" 8080 "WELCOME" "MAIN");
    ("helios",    mk "Helios" 8081 "HELIOS" "MAIN");
    ("blog",      mk "Blog" 8085 "BLOG" "MAIN");
    ("arch",      mk "Arch" 8087 "ARCH" "MAIN");
    ("mcad",      mk "MCAD" 8088 "MCAD" "MAIN");
    ("atlas",     mk "Atlas" 8089 "ATLAS" "MAIN");
    ("learn",     mk "Learn Hub" 8086 "LEARN" "LEARN HUB");
    ("ai",        mk "AI" 8100 "LEARN/AI" "LEARN");
    ("ubuntu",    mk "Ubuntu" 8101 "LEARN/UBUNTU" "LEARN");
    ("opencv",    mk "OpenCV" 8102 "LEARN/OPENCV" "LEARN");
    ("arduino",   mk "Arduino" 8103 "LEARN/ARDUINO" "LEARN");
    ("esp32",     mk "ESP32" 8104 "LEARN/ESP32" "LEARN");
    ("swarm",     mk "Swarm" 8105 "LEARN/SWARM_ROBOTICS" "LEARN");
    ("slam",      mk "SLAM" 8106 "LEARN/SLAM" "LEARN");
    ("git",       mk "Git" 8107 "LEARN/GIT" "LEARN");
    ("ds",        mk "Data Structures" 8108 "LEARN/DATA_STRUCTURES" "LEARN");
    ("python",    mk "Python" 8110 "LEARN/PYTHON" "LEARN");
    ("sensors",   mk "Sensors" 8083 "LEARN/SENSORS" "LEARN");
    ("pll",       mk "PLL" 8090 "TOOLS/PLL" "TOOLS");
    ("autocrate", mk "Autocrate" 8084 "TOOLS/AUTOCRATE" "TOOLS");
    ("power",     mk "Power" 8091 "TOOLS/POWER_CIRCUITS" "TOOLS");
    ("spice",     mk "SPICE" 8123 "TOOLS/SPICE" "TOOLS");
    ("chladni",   mk "Chladni" 8082 "SIMULATION/CHLADNI" "SIMULATION");
    ("handtrack", mk "Handtrack" 8121 "SIMULATION/HANDTRACK" "SIMULATION");
    ("powerlaw",  mk "Power Law" 8122 "SIMULATION/POWERLAW" "SIMULATION") ].

Definition GROUP_ORDER : list string :=
  ["MAIN"; "LEARN HUB"; "LEARN"; "TOOLS"; "SIMULATION"].

(** [d.get(k)] / [k in d] / [d[k]] on a dictionary kept as an ordered
    list of items. *)
Fixpoint assoc {A : Type} (k : string) (d : list (string * A)) : option A :=
  match d with
  | [] => None
  | (k', v) :: d' => if decide (k' = k) then Some v else assoc k d'
  end.

(** ** The supervisor's data *)

(** The five strings a [statuses] entry can hold. *)
Inductive status := stopped | building | running | error | unmanaged.

#[global] Instance status_eq_dec : EqDecision status.
Proof. solve_decision. Defined.

(** A [subprocess.Popen] object, as far as the manager looks at it. *)
Record Popen := {
  pid : Z;
  returncode : option Z }.

Inductive signal := SIGTERM | SIGKILL.

(** What the manager does to the outside world, in the order it does it. *)
Inductive event :=
  | EvPopen (cwd : string) (prt : Z) (log : string) (child : Z)
  | EvKillpg (pgid : Z) (sig : signal)
  | EvKill (target : Z) (sig : signal)
  | EvWait (child : Z) (timeout : Z)
  | EvSleep (secs : Z)
  | EvLsof (prt : Z).

(** The bodies handed to [threading.Thread(target=...)]. *)
Inductive task :=
  | staggered_all
  | staggered_group (g : string).

Record state := {
  processes : gmap string Popen;            (* id -> Popen *)
  statuses : gmap string status;            (* id -> status *)
  exit_codes : gmap string (option Z);      (* id -> int|None *)
  logs : gmap string (list string);         (* path -> lines of the file *)
  trace : list event;                       (* oldest first *)
  threads : list task }.                    (* started, oldest first *)

Definition with_processes (f : gmap string Popen → gmap string Popen) (st : state) : state :=
  {| processes := f (processes st); statuses := statuses st;
     exit_codes := exit_codes st; logs := logs st;
     trace := trace st; threads := threads st |}.

Definition with_statuses (f : gmap string status → gmap string status) (st : state) : state :=
  {| processes := processes st; statuses := f (statuses st);
     exit_codes := exit_codes st; logs := logs st;
     trace := trace st; threads := threads st |}.

Definition with_exit_codes (f : gmap string (option Z) → gmap string (option Z)) (st : state) : state :=
  {| processes := processes st; statuses := statuses st;
     exit_codes := f (exit_codes st); logs := logs st;
     trace := trace st; threads := threads st |}.

Definition with_logs (f : gmap string (list string) → gmap string (list string)) (st : state) : state :=
  {| processes := processes st; statuses := statuses st;
     exit_codes := exit_codes st; logs := f (logs st);
     trace := trace st; threads := threads st |}.

Definition with_trace (f : list event → list event) (st : state) : state :=
  {| processes := processes st; statuses := statuses st;
     exit_codes := exit_codes st; logs := logs st;
     trace := f (trace st); threads := threads st |}.

Definition with_threads (f : list task → list task) (st : state) : state :=
  {| processes := processes st; statuses := statuses st;
     exit_codes := exit_codes st; logs := logs st;
     trace := trace st; threads := f (threads st) |}.

(** ** Observations of the operating system *)

Inductive popen_result :=
  | spawned (child : Z)      (* the child runs, with this pid *)
  | file_not_found           (* FileNotFoundError *)
  | os_error.                (* any other OSError, e.g. PermissionError *)

(** One line of [lsof -t] output after [strip()]: blank, not a number
    ([int] raises ValueError), or a pid. *)
Inductive lsof_line := blank | garbage | pid_line (p : Z).

Inductive lsof_result :=
  | lsof_stdout (lines : list lsof_line)
  | lsof_timeout             (* subprocess.TimeoutExpired *)
  | lsof_missing             (* FileNotFoundError *)
  | lsof_os_error.           (* any other OSError *)

Record env := {
  REPO_ROOT : string;
  path_exists : string → bool;          (* Path.exists() *)
  connect_ex_ok : Z → bool;             (* connect_ex(("127.0.0.1", port)) == 0 *)
  popen : string → Z → popen_result;    (* Popen(["trunk", ...], cwd=...) *)
  exited : Z → option Z;                (* a non-blocking waitpid on a child *)
  exits_within : Z → Z → option Z;      (* the child's exit status if it exits before the timeout *)
  getpgid : Z → option Z;               (* None: ProcessLookupError / OSError *)
  lsof : Z → lsof_result }.

(** ** A state-and-exception monad for the methods *)

Inductive exn := KeyError (key : string) | OSError.

Inductive outcome (A : Type) :=
  | returned (a : A)
  | raised (e : exn).
Arguments returned {A} a.
Arguments raised {A} e.

Definition M (A : Type) : Type := state → outcome A * state.

#[global] Instance M_ret : MRet M := λ A a st, (returned a, st).
#[global] Instance M_bind : MBind M := λ A B k m st,
  match m st with
  | (returned a, st') => k a st'
  | (raised e, st') => (raised e, st')
  end.

Definition raise {A : Type} (e : exn) : M A := λ st, (raised e, st).
Definition get : M state := λ st, (returned st, st).
Definition modify (f : state → state) : M unit := λ st, (returned tt, f st).
Definition emit (e : event) : M unit := modify (with_trace (λ t, t ++ [e])).

(** [for x in xs: body(x)]; an exception leaves the loop. *)
Fixpoint for_each {A : Type} (xs : list A) (body : A → M unit) : M unit :=
  match xs with
  | [] => mret tt
  | x :: xs' => body x ;; for_each xs' body
  end.

(** [when c: body] *)
Definition when (c : bool) (body : M unit) : M unit :=
  if c then body else mret tt.

(** ** Paths *)

(** [a / b] on [pathlib.Path]. *)
Definition path_join (a b : string) : string := a +:+ "/" +:+ b.

Definition LOG_DIR (E : env) : string :=
  path_join (path_join (REPO_ROOT E) "TESTS") "logs".

Definition log_file_of (E : env) (project_id : string) : string :=
  path_join (LOG_DIR E) (project_id +:+ ".log").

(** ** Small steps shared by the methods *)

(** [self.statuses.get(id) in (...)] *)
Definition status_in (o : option status) (l : list status) : bool :=
  match o with
  | Some s => bool_decide (s ∈ l)
  | None => false
  end.

(** [self.statuses[id] = s] *)
Definition set_status (project_id : string) (s : status) : M unit :=
  modify (with_statuses <[project_id := s]>).

(** [self.statuses[id]], a KeyError when the id has no entry. *)
Definition getitem_status (project_id : string) : M status :=
  st ← get;
  match statuses st !! project_id with
  | Some s => mret s
  | None => raise (KeyError project_id)
  end.

(** [open(path, "w")]: the file exists afterwards and is empty. *)
Definition open_w (path : string) : M unit :=
  modify (with_logs <[path := []]>).

(** The child writing one more line to the descriptor it was given. *)
Definition child_writes (path line : string) : M unit :=
  modify (with_logs (λ fs, <[path := default [] (fs !! path) ++ [line]]> fs)).

(** [pgid = os.getpgid(proc.pid); os.killpg(pgid, sig)] inside
    [try ... except (ProcessLookupError, OSError): pass]: when the lookup
    fails nothing is sent; whatever [killpg] raises is dropped. *)
Definition killpg_of (E : env) (proc : Popen) (sig : signal) : M unit :=
  match getpgid E (pid proc) with
  | Some pgid => emit (EvKillpg pgid sig)
  | None => mret tt
  end.

(** [proc.poll()] *)
Definition Popen_poll (E : env) (proc : Popen) : option Z :=
  match returncode proc with
  | Some rc => Some rc
  | None => exited E (pid proc)
  end.

(** [proc.wait(timeout=t)]: the object with its [returncode] set, or
    [None] for [subprocess.TimeoutExpired] (the object is left as it was). *)
Definition Popen_wait (E : env) (proc : Popen) (t : Z) : M (option Popen) :=
  match returncode proc with
  | Some _ => mret (Some proc)
  | None =>
      emit (EvWait (pid proc) t) ;;
      mret (match exits_within E (pid proc) t with
            | Some rc => Some {| pid := pid proc; returncode := Some rc |}
            | None => None
            end)
  end.

(** ** ProjectManager *)

Definition _port_open (E : env) (prt : Z) : bool := connect_ex_ok E prt.

(** The body of the loop of [__init__]: seed the status from the port. *)
Definition init_project (E : env) (pid : string) (info : project) : M unit :=
  (if _port_open E (port info)
   then set_status pid unmanaged
   else set_status pid stopped) ;;
  modify (with_exit_codes <[pid := None]>).

(** [__init__], started on a log directory holding [fs]. *)
Definition ProjectManager_init (E : env) (fs : gmap string (list string)) : state :=
  snd (for_each PROJECTS (λ '(pid, info), init_project E pid info)
       {| processes := ∅; statuses := ∅; exit_codes := ∅;
          logs := fs; trace := []; threads := [] |}).

Definition start (E : env) (project_id : string) : M bool :=
  match assoc project_id PROJECTS with
  | None => mret false
  | Some info =>
      st ← get;
      if status_in (statuses st !! project_id) [running; building; unmanaged]
      then mret false
      else
        let project_dir := path_join (REPO_ROOT E) (dir info) in
        let log_file := log_file_of E project_id in
        if negb (path_exists E (path_join project_dir "index.html"))
           && negb (path_exists E (path_join project_dir "Trunk.toml"))
        then set_status project_id error ;; mret false
        else
          open_w log_file ;;
          match popen E project_dir (port info) with
          | file_not_found => set_status project_id error ;; mret false
          | os_error => raise OSError
          | spawned child =>
              emit (EvPopen project_dir (port info) log_file child) ;;
              modify (with_processes <[project_id := {| pid := child; returncode := None |}]>) ;;
              set_status project_id building ;;
              modify (with_exit_codes <[project_id := None]>) ;;
              mret true
          end
  end.

(** Kill whatever process is listening on a port. *)
Definition _kill_port (E : env) (prt : Z) : M unit :=
  emit (EvLsof prt) ;;
  match lsof E prt with
  | lsof_stdout lines =>
      for_each lines (λ l,
        match l with
        | pid_line p => emit (EvKill p SIGTERM)
        | blank | garbage => mret tt
        end)
  | lsof_timeout | lsof_missing => mret tt
  | lsof_os_error => raise OSError
  end.

Definition stop (E : env) (project_id : string) : M bool :=
  st ← get;
  match processes st !! project_id with
  | None =>
      if decide (statuses st !! project_id = Some unmanaged)
      then
        match assoc project_id PROJECTS with
        | None => raise (KeyError project_id)
        | Some info =>
            _kill_port E (port info) ;;
            set_status project_id stopped ;;
            mret true
        end
      else mret false
  | Some proc =>
      killpg_of E proc SIGTERM ;;
      r ← Popen_wait E proc 3;
      proc' ← match r with
              | Some proc' => mret proc'
              | None => killpg_of E proc SIGKILL ;; mret proc
              end;
      modify (with_processes (delete project_id)) ;;
      set_status project_id stopped ;;
      modify (with_exit_codes <[project_id := returncode proc']>) ;;
      mret true
  end.

(** The [_staggered] closures of [start_all] and [start_group], the body
    a started thread runs. *)
Definition run_task (E : env) (t : task) : M unit :=
  for_each PROJECTS (λ '(pid, info),
    st ← get;
    when (match t with
          | staggered_all => true
          | staggered_group g => bool_decide (group info = g)
          end
          && bool_decide (statuses st !! pid = Some stopped))
      (start E pid ;; emit (EvSleep 1))).

(** [threading.Thread(target=..., daemon=True).start()] *)
Definition Thread_start (t : task) : M unit :=
  modify (with_threads (λ ts, ts ++ [t])).

Definition start_all : M unit := Thread_start staggered_all.

Definition stop_all (E : env) : M unit :=
  for_each PROJECTS.*1 (λ pid,
    st ← get;
    when (status_in (statuses st !! pid) [running; building; unmanaged])
      (stop E pid ;; mret tt)).

Definition start_group (g : string) : M unit := Thread_start (staggered_group g).

Definition stop_group (E : env) (g : string) : M unit :=
  for_each PROJECTS (λ '(pid, info),
    st ← get;
    when (bool_decide (group info = g)
          && status_in (statuses st !! pid) [running; building; unmanaged])
      (stop E pid ;; mret tt)).

(** The body of the [for] loop of [update_statuses]. *)
Definition update_status (E : env) (pid : string) (info : project) : M unit :=
  st ← get;
  let port_up := _port_open E (port info) in
  match processes st !! pid with
  | Some proc =>
      match Popen_poll E proc with
      | Some rc =>
          modify (with_exit_codes <[pid := Some rc]>) ;;
          modify (with_processes (delete pid)) ;;
          if decide (rc = 0) then set_status pid stopped else set_status pid error
      | None =>
          if port_up then set_status pid running else set_status pid building
      end
  | None =>
      s ← getitem_status pid;
      if decide (s = unmanaged)
      then when (negb port_up) (set_status pid stopped)
      else when (bool_decide (s = stopped) && port_up) (set_status pid unmanaged)
  end.

(** Called periodically by the monitor thread. *)
Definition update_statuses (E : env) : M unit :=
  for_each PROJECTS (λ '(pid, info), update_status E pid info).

(** [all_lines[-lines:]] *)
Definition last_lines {A : Type} (lines : Z) (all_lines : list A) : list A :=
  let start := - lines in
  if decide (start < 0)
  then drop (Z.to_nat (Z.max 0 (Z.of_nat (length all_lines) + start))) all_lines
  else drop (Z.to_nat start) all_lines.

Definition get_log (E : env) (project_id : string) (lines : Z) (st : state) : string :=
  match logs st !! log_file_of E project_id with
  | None => ""
  | Some all_lines => foldr (λ a b, a +:+ b) "" (last_lines lines all_lines)
  end.

(** ** The reconciliation table of the specification

    Written from the words of the specification (section 4.2), to be
    compared with [update_statuses].  The second column of the table is
    the owned-handle signal. *)

Inductive handle_signal :=
  | no_handle                (* "n/a": the supervisor holds no handle *)
  | exited_with (rc : Z)     (* "yes, code rc" *)
  | still_running.           (* "no" *)

Definition transition_table (cur : status) (h : handle_signal) (port_live : bool)
  : option status :=
  match cur, h, port_live with
  | (building | running), exited_with rc, _ =>
      Some (if decide (rc = 0) then stopped else error)
  | (building | running), still_running, true => Some running
  | (building | running), still_running, false => Some building
  | unmanaged, no_handle, false => Some stopped
  | unmanaged, no_handle, true => Some unmanaged
  | stopped, no_handle, true => Some unmanaged
  | stopped, no_handle, false => Some stopped
  | error, no_handle, _ => Some error
  | _, _, _ => None
  end.

(** The owned-handle signal the reconciler reads for a project. *)
Definition handle_signal_of (E : env) (st : state) (pid : string) : handle_signal :=
  match processes st !! pid with
  | None => no_handle
  | Some proc =>
      match Popen_poll E proc with
      | Some rc => exited_with rc
      | None => still_running
      end
  end.

(** ** Observation points

    The states the supervisor can be seen in: the one [__init__] builds,
    and every state one of its methods, a started thread body or a write
    of a child to its log leaves behind (also when the method raised). *)

Inductive reachable : state → Prop :=
  | reach_init E fs : reachable (ProjectManager_init E fs)
  | reach_start E id st : reachable st → reachable (start E id st).2
  | reach_stop E id st : reachable st → reachable (stop E id st).2
  | reach_update_statuses E st : reachable st → reachable (update_statuses E st).2
  | reach_start_all st : reachable st → reachable (start_all st).2
  | reach_stop_all E st : reachable st → reachable (stop_all E st).2
  | reach_start_group g st : reachable st → reachable (start_group g st).2
  | reach_stop_group E g st : reachable st → reachable (stop_group E g st).2
  | reach_run_task E t st : reachable st → reachable (run_task E t st).2
  | reach_child_writes path line st : reachable st → reachable (child_writes path line st).2.

(** What the supervisor keeps about one project. *)
Definition entry (st : state) (id : string)
  : option Popen * option status * option (option Z) :=
  (processes st !! id, statuses st !! id, exit_codes st !! id).

(** A handle is held exactly for the projects in [building] or
    [running], and every project of the registry has a status. *)
Definition consistent_at (st : state) (id : string) : Prop :=
  (is_Some (processes st !! id) ↔
     statuses st !! id = Some building ∨ statuses st !! id = Some running)
  ∧ (is_Some (assoc id PROJECTS) → is_Some (statuses st !! id)).

Definition consistent (st : state) : Prop := ∀ id, consistent_at st id.

(** [m] keeps [I], whatever it returns or raises. *)
Definition preserves {A : Type} (I : state → Prop) (m : M A) : Prop :=
  ∀ st, I st → I (m st).2.

(** [m] only touches the supervisor's entry for [id]. *)
Definition touches_only {A : Type} (id : string) (m : M A) : Prop :=
  ∀ st id', id' ≠ id → entry (m st).2 id' = entry st id'.

(** ** Example environments and states *)

(** Every marker is present, [trunk] starts as process 4242, nothing
    listens, no child exits on its own or on SIGTERM. *)
Definition E_quiet : env :=
  {| REPO_ROOT := "/repo";
     path_exists := λ _, true;
     connect_ex_ok := λ _, false;
     popen := λ _ _, spawned 4242;
     exited := λ _, None;
     exits_within := λ _ _, None;
     getpgid := λ p, Some p;
     lsof := λ _, lsof_stdout [] |}.

(** As [E_quiet], but a child that gets SIGTERM exits with status 0
    before the timeout. *)
Definition E_graceful : env :=
  {| REPO_ROOT := "/repo";
     path_exists := λ _, true;
     connect_ex_ok := λ _, false;
     popen := λ _ _, spawned 4242;
     exited := λ _, None;
     exits_within := λ _ _, Some 0;
     getpgid := λ p, Some p;
     lsof := λ _, lsof_stdout [] |}.

(** As [E_quiet], but [Popen] raises PermissionError. *)
Definition E_permission_denied : env :=
  {| REPO_ROOT := "/repo";
     path_exists := λ _, true;
     connect_ex_ok := λ _, false;
     popen := λ _ _, os_error;
     exited := λ _, None;
     exits_within := λ _ _, None;
     getpgid := λ p, Some p;
     lsof := λ _, lsof_stdout [] |}.

(** As [E_quiet], but no directory holds a marker. *)
Definition E_no_marker : env :=
  {| REPO_ROOT := "/repo";
     path_exists := λ _, false;
     connect_ex_ok := λ _, false;
     popen := λ _ _, spawned 4242;
     exited := λ _, None;
     exits_within := λ _ _, None;
     getpgid := λ p, Some p;
     lsof := λ _, lsof_stdout [] |}.

(** Something already listens on every port. *)
Definition E_busy : env :=
  {| REPO_ROOT := "/repo";
     path_exists := λ _, true;
     connect_ex_ok := λ _, true;
     popen := λ _ _, spawned 4242;
     exited := λ _, None;
     exits_within := λ _ _, None;
     getpgid := λ p, Some p;
     lsof := λ _, lsof_stdout [pid_line 777] |}.

(** A fresh supervisor on an empty log directory: all projects stopped. *)
Definition st_fresh : state := ProjectManager_init E_quiet ∅.

(** A fresh supervisor that finds every port taken: all unmanaged. *)
Definition st_taken : state := ProjectManager_init E_busy ∅.

(** A fresh supervisor whose log directory holds a log of an earlier
    run of "welcome". *)
Definition st_old_log : state :=
  ProjectManager_init E_quiet {[ log_file_of E_quiet "welcome" := ["old line"] ]}.

(** "welcome" after a [start] that found no marker: in error. *)
Definition st_welcome_error : state := (start E_no_marker "welcome" st_fresh).2.

(** "welcome" started and still building. *)
Definition st_welcome_building : state := (start E_quiet "welcome" st_fresh).2.

(** The directory [trunk] is started in, and whether it holds one of
    the two markers [start] looks for. *)
Definition project_dir (E : env) (info : project) : string :=
  path_join (REPO_ROOT E) (dir info).

Definition has_marker (E : env) (info : project) : bool :=
  path_exists E (path_join (project_dir E info) "index.html")
  || path_exists E (path_join (project_dir E info) "Trunk.toml").

(** The handle [start] stores for a child. *)
Definition new_handle (child : Z) : Popen := {| pid := child; returncode := None |}.

(** The six ways through [start]. *)
Inductive start_path (E : env) (id : string) (st : state) : outcome bool * state → Prop :=
  | sp_unknown :
      assoc id PROJECTS = None →
      start_path E id st (returned false, st)
  | sp_busy :
      status_in (statuses st !! id) [running; building; unmanaged] = true →
      start_path E id st (returned false, st)
  | sp_no_marker info :
      assoc id PROJECTS = Some info →
      status_in (statuses st !! id) [running; building; unmanaged] = false →
      has_marker E info = false →
      start_path E id st (returned false, with_statuses <[id := error]> st)
  | sp_file_not_found info :
      assoc id PROJECTS = Some info →
      status_in (statuses st !! id) [running; building; unmanaged] = false →
      has_marker E info = true →
      popen E (project_dir E info) (port info) = file_not_found →
      start_path E id st
        (returned false,
         with_statuses <[id := error]> (with_logs <[log_file_of E id := []]> st))
  | sp_os_error info :
      assoc id PROJECTS = Some info →
      status_in (statuses st !! id) [running; building; unmanaged] = false →
      has_marker E info = true →
      popen E (project_dir E info) (port info) = os_error →
      start_path E id st (raised OSError, with_logs <[log_file_of E id := []]> st)
  | sp_spawned info child :
      assoc id PROJECTS = Some info →
      status_in (statuses st !! id) [running; building; unmanaged] = false →
      has_marker E info = true →
      popen E (project_dir E info) (port info) = spawned child →
      start_path E id st
        (returned true,
         with_exit_codes <[id := None]>
           (with_statuses <[id := building]>
              (with_processes <[id := new_handle child]>
                 (with_trace (λ t, t ++ [EvPopen (project_dir E info) (port info)
                                           (log_file_of E id) child])
                    (with_logs <[log_file_of E id := []]> st))))).

(** What [stop] does to the outside world for an owned handle, and the
    [returncode] the handle has afterwards. *)
Definition killpg_events (E : env) (proc : Popen) (sig : signal) : list event :=
  match getpgid E (pid proc) with
  | Some pgid => [EvKillpg pgid sig]
  | None => []
  end.

Definition stop_events (E : env) (proc : Popen) : list event :=
  killpg_events E proc SIGTERM ++
  match returncode proc with
  | Some _ => []
  | None =>
      EvWait (pid proc) 3 ::
      match exits_within E (pid proc) 3 with
      | Some _ => []
      | None => killpg_events E proc SIGKILL
      end
  end.

Definition stop_returncode (E : env) (proc : Popen) : option Z :=
  match returncode proc with
  | Some rc => Some rc
  | None => exits_within E (pid proc) 3
  end.

(** What [_kill_port] does to the outside world. *)
Definition kill_port_events (E : env) (prt : Z) : list event :=
  EvLsof prt ::
  match lsof E prt with
  | lsof_stdout lines =>
      omap (λ l, match l with
                 | pid_line p => Some (EvKill p SIGTERM)
                 | blank | garbage => None
                 end) lines
  | lsof_timeout | lsof_missing | lsof_os_error => []
  end.

(** A handle is held only for projects in [building] or [running]. *)
Definition handle_inv (st : state) : Prop :=
  ∀ id, is_Some (processes st !! id) →
        statuses st !! id = Some building ∨ statuses st !! id = Some running.

(** The supervisor keeps nothing about [id]. *)
Definition untracked (id : string) (st : state) : Prop :=
  processes st !! id = None ∧ statuses st !! id = None.

(** The events a call appends to the trace when it runs in [st]. *)
Definition emitted {A : Type} (m : M A) (st : state) : list event :=
  drop (length (trace st)) (trace (m st).2).

(** The projects among [ids] that a bulk stop calls [stop] for: those
    whose status is running, building or unmanaged, in the order of
    [ids]. *)
Definition live_in (st : state) (ids : list string) : list string :=
  List.filter (λ pid, status_in (statuses st !! pid) [running; building; unmanaged]) ids.

(** The ids of the projects of a group, in registry order. *)
Definition group_ids (g : string) : list string :=
  (List.filter (λ x, bool_decide (group x.2 = g)) PROJECTS).*1.

(** ** The rest of [ProjectManager] and the HTTP handler *)

Import Stdlib.Strings.Ascii.

(** A dictionary kept in insertion order: [d[k] = v] and [d.get(k)]. *)
Fixpoint dict_set {K V : Type} `{EqDecision K} (k : K) (v : V) (d : list (K * V))
  : list (K * V) :=
  match d with
  | [] => [(k, v)]
  | (k', v') :: d' =>
      if decide (k' = k) then (k, v) :: d' else (k', v') :: dict_set k v d'
  end.

Fixpoint dict_get {K V : Type} `{EqDecision K} (k : K) (d : list (K * V)) : option V :=
  match d with
  | [] => None
  | (k', v) :: d' => if decide (k' = k) then Some v else dict_get k d'
  end.

(** One value of the ["projects"] dictionary of the status document. *)
Record project_status := {
  js_name : string;
  js_port : Z;
  js_group : string;
  js_status : status;
  js_exitCode : option Z }.

(** What [get_status_json] returns. *)
Record status_json := {
  js_counts : list (status * Z);
  js_projects : list (string * project_status);
  js_groups : list string }.

(** The body of the loop of [get_status_json], on the pair of
    dictionaries it fills. *)
Definition status_json_step (st : state)
    (acc : list (status * Z) * list (string * project_status))
    (item : string * project)
  : list (status * Z) * list (string * project_status) :=
  let '(counts, projects) := acc in
  let '(pid, info) := item in
  let status := default stopped (statuses st !! pid) in
  (dict_set status (default 0 (dict_get status counts) + 1) counts,
   dict_set pid {| js_name := name info; js_port := port info;
                   js_group := group info; js_status := status;
                   js_exitCode := mjoin (exit_codes st !! pid) |} projects).

Definition counts_zero : list (status * Z) :=
  [(running, 0); (building, 0); (stopped, 0); (error, 0); (unmanaged, 0)].

Definition get_status_json (st : state) : status_json :=
  let '(counts, projects) := foldl (status_json_step st) (counts_zero, []) PROJECTS in
  {| js_counts := counts; js_projects := projects; js_groups := GROUP_ORDER |}.

(** [shutdown]: [for pid in list(self.processes.keys()): self.stop(pid)].
    [keys] is that list; a [gmap] does not keep the order in which the
    handles were stored, so it is given.  The two [print] calls write to
    the terminal, which [state] does not record. *)
Definition shutdown (E : env) (keys : list string) : M unit :=
  for_each keys (λ pid, stop E pid ;; mret tt).

(** The events of a trace in which every spawn is directly followed by
    a one-second sleep. *)
Fixpoint staggered (evs : list event) : bool :=
  match evs with
  | [] => true
  | EvPopen _ _ _ _ :: evs' =>
      match evs' with
      | EvSleep 1 :: _ => staggered evs'
      | _ => false
      end
  | _ :: evs' => staggered evs'
  end.

(** [s.split(sep)] for a one-character separator. *)
Fixpoint py_split (sep : Ascii.ascii) (s : string) : list string :=
  match s with
  | EmptyString => [EmptyString]
  | String c rest =>
      if decide (c = sep) then EmptyString :: py_split sep rest
      else match py_split sep rest with
           | [] => [String c EmptyString]
           | h :: t => String c h :: t
           end
  end.

(** [xs[-1]] on a list that is not empty. *)
Definition py_last (xs : list string) : string := default EmptyString (last xs).

(** [s.replace("%20", " ")] *)
Fixpoint replace_pct20 (s : string) : string :=
  match s with
  | String "%"%char (String "2"%char (String "0"%char rest)) =>
      String " "%char (replace_pct20 rest)
  | String c rest => String c (replace_pct20 rest)
  | EmptyString => EmptyString
  end.

(** What a request is answered with: the page, the argument of
    [_json_response], or [send_error(404)]. *)
Inductive response :=
  | resp_html
  | resp_status (doc : status_json)     (* get_status_json() *)
  | resp_log (log : string)             (* {"log": log_text} *)
  | resp_ok (ok : bool)                 (* {"ok": ok} *)
  | resp_404.

Definition do_GET (E : env) (path : string) : M response :=
  if decide (path = "/") then mret resp_html
  else if decide (path = "/api/status") then
    st ← get; mret (resp_status (get_status_json st))
  else if String.prefix "/api/logs/" path then
    let project_id := py_last (py_split "/"%char path) in
    st ← get; mret (resp_log (get_log E project_id 100 st))
  else mret resp_404.

Definition do_POST (E : env) (path : string) : M response :=
  if String.prefix "/api/start-all" path then
    start_all ;; mret (resp_ok true)
  else if String.prefix "/api/stop-all" path then
    stop_all E ;; mret (resp_ok true)
  else if String.prefix "/api/start-group/" path then
    let group := replace_pct20 (py_last (py_split "/"%char path)) in
    start_group group ;; mret (resp_ok true)
  else if String.prefix "/api/stop-group/" path then
    let group := replace_pct20 (py_last (py_split "/"%char path)) in
    stop_group E group ;; mret (resp_ok true)
  else if String.prefix "/api/start/" path then
    let project_id := py_last (py_split "/"%char path) in
    ok ← start E project_id; mret (resp_ok ok)
  else if String.prefix "/api/stop/" path then
    let project_id := py_last (py_split "/"%char path) in
    ok ← stop E project_id; mret (resp_ok ok)
  else mret resp_404.

(** A character occurs in a string. *)
Fixpoint has_char (c : Ascii.ascii) (s : string) : bool :=
  match s with
  | EmptyString => false
  | String c' rest => bool_decide (c' = c) || has_char c rest
  end.

(** A string occurs in a string. *)
Fixpoint has_sub (p s : string) : bool :=
  String.prefix p s
  || match s with
     | EmptyString => false
     | String _ rest => has_sub p rest
     end.

(** * Proofs *)

(** ** Running the monad *)

Ltac unfold_M :=
  unfold set_status, getitem_status, open_w, emit, killpg_of, Popen_wait,
    Thread_start, when, raise, get, modify, mbind, M_bind, mret, M_ret in *.

Lemma status_in_busy (o : option status) :
  status_in o [running; building; unmanaged] = true ↔
  o = Some running ∨ o = Some building ∨ o = Some unmanaged.
Proof.
  destruct o as [[]|]; cbn; split; intros H; try done;
    try (destruct H as [H|[H|H]]; done); auto.
Qed.

Lemma status_in_ready (o : option status) :
  o = Some stopped ∨ o = Some error →
  status_in o [running; building; unmanaged] = false.
Proof. by intros [-> | ->]. Qed.

(** ** [start], path by path *)

Lemma start_unknown E id st :
  assoc id PROJECTS = None → start E id st = (returned false, st).
Proof. intros H. unfold start. by rewrite H. Qed.

Lemma start_busy E id st :
  status_in (statuses st !! id) [running; building; unmanaged] = true →
  start E id st = (returned false, st).
Proof.
  intros H. unfold start. destruct (assoc id PROJECTS); [|done].
  unfold_M. by rewrite H.
Qed.

Lemma start_no_marker E id info st :
  assoc id PROJECTS = Some info →
  status_in (statuses st !! id) [running; building; unmanaged] = false →
  has_marker E info = false →
  start E id st = (returned false, with_statuses <[id := error]> st).
Proof.
  intros Hk Hs Hm. unfold start. rewrite Hk. unfold_M. rewrite Hs.
  unfold has_marker, project_dir in Hm.
  apply orb_false_iff in Hm as [-> ->]. done.
Qed.

Lemma start_file_not_found E id info st :
  assoc id PROJECTS = Some info →
  status_in (statuses st !! id) [running; building; unmanaged] = false →
  has_marker E info = true →
  popen E (project_dir E info) (port info) = file_not_found →
  start E id st =
    (returned false,
     with_statuses <[id := error]> (with_logs <[log_file_of E id := []]> st)).
Proof.
  intros Hk Hs Hm Hp. unfold start. rewrite Hk. unfold_M. rewrite Hs.
  unfold has_marker, project_dir in *.
  destruct (path_exists E _), (path_exists E _); try done; cbn; by rewrite Hp.
Qed.

Lemma start_os_error E id info st :
  assoc id PROJECTS = Some info →
  status_in (statuses st !! id) [running; building; unmanaged] = false →
  has_marker E info = true →
  popen E (project_dir E info) (port info) = os_error →
  start E id st = (raised OSError, with_logs <[log_file_of E id := []]> st).
Proof.
  intros Hk Hs Hm Hp. unfold start. rewrite Hk. unfold_M. rewrite Hs.
  unfold has_marker, project_dir in *.
  destruct (path_exists E _), (path_exists E _); try done; cbn; by rewrite Hp.
Qed.

Lemma start_spawned E id info st child :
  assoc id PROJECTS = Some info →
  status_in (statuses st !! id) [running; building; unmanaged] = false →
  has_marker E info = true →
  popen E (project_dir E info) (port info) = spawned child →
  start E id st =
    (returned true,
     with_exit_codes <[id := None]>
       (with_statuses <[id := building]>
          (with_processes <[id := new_handle child]>
             (with_trace (λ t, t ++ [EvPopen (project_dir E info) (port info)
                                       (log_file_of E id) child])
                (with_logs <[log_file_of E id := []]> st))))).
Proof.
  intros Hk Hs Hm Hp. unfold start. rewrite Hk. unfold_M. rewrite Hs.
  unfold has_marker, project_dir in *.
  destruct (path_exists E _), (path_exists E _); try done; cbn; by rewrite Hp.
Qed.

Lemma start_paths E id st : start_path E id st (start E id st).
Proof.
  destruct (assoc id PROJECTS) as [info|] eqn:Hk.
  2: { rewrite start_unknown by done. by constructor. }
  destruct (status_in (statuses st !! id) [running; building; unmanaged]) eqn:Hs.
  { rewrite start_busy by done. by constructor 2. }
  destruct (has_marker E info) eqn:Hm.
  2: { erewrite start_no_marker by done. by econstructor 3. }
  destruct (popen E (project_dir E info) (port info)) as [child| |] eqn:Hp.
  - erewrite start_spawned by done. by econstructor 6.
  - erewrite start_file_not_found by done. by econstructor 4.
  - erewrite start_os_error by done. by econstructor 5.
Qed.

(** ** [stop], path by path *)

Lemma stop_nothing_to_do E id st :
  processes st !! id = None →
  statuses st !! id ≠ Some unmanaged →
  stop E id st = (returned false, st).
Proof.
  intros Hp Hs. unfold stop. unfold_M. rewrite Hp.
  by destruct (decide (statuses st !! id = Some unmanaged)).
Qed.

Lemma kill_port_run E prt st :
  _kill_port E prt st =
    (match lsof E prt with lsof_os_error => raised OSError | _ => returned tt end,
     with_trace (λ t, t ++ kill_port_events E prt) st).
Proof.
  unfold _kill_port, kill_port_events. unfold_M.
  destruct (lsof E prt) as [lines| | |]; cbn;
    try (unfold with_trace; cbn; by rewrite <- ?app_assoc).
  assert (∀ evs st0, trace st0 = trace st ++ evs →
            with_trace (λ _, trace st0) st = st0 →
            for_each lines (λ l, match l with
                                 | pid_line p => λ s, (returned (), with_trace (λ t, t ++ [EvKill p SIGTERM]) s)
                                 | _ => λ s, (returned (), s)
                                 end) st0
            = (returned (), with_trace (λ t, t ++ evs ++ omap (λ l, match l with
                 | pid_line p => Some (EvKill p SIGTERM)
                 | blank | garbage => None
                 end) lines) st)) as H.
  { induction lines as [|l lines IH]; intros evs st0 Ht Hst; cbn.
    - rewrite app_nil_r. rewrite <- Hst, Ht. done.
    - unfold_M. destruct l; cbn; try by apply IH.
      rewrite (IH (evs ++ [EvKill p SIGTERM])); cbn.
      + by rewrite <- app_assoc.
      + by rewrite Ht, <- app_assoc.
      + rewrite <- Hst. done. }
  apply (H [EvLsof prt]); done.
Qed.

Lemma stop_unmanaged E id info st :
  processes st !! id = None →
  statuses st !! id = Some unmanaged →
  assoc id PROJECTS = Some info →
  stop E id st =
    match lsof E (port info) with
    | lsof_os_error =>
        (raised OSError, with_trace (λ t, t ++ kill_port_events E (port info)) st)
    | _ =>
        (returned true,
         with_statuses <[id := stopped]>
           (with_trace (λ t, t ++ kill_port_events E (port info)) st))
    end.
Proof.
  intros Hp Hs Hk. unfold stop. unfold mbind, M_bind, get. rewrite Hp.
  destruct (decide _) as [_|]; [|done]. rewrite Hk.
  rewrite kill_port_run. by destruct (lsof E (port info)).
Qed.

Lemma stop_unmanaged_unknown E id st :
  processes st !! id = None →
  statuses st !! id = Some unmanaged →
  assoc id PROJECTS = None →
  stop E id st = (raised (KeyError id), st).
Proof.
  intros Hp Hs Hk. unfold stop. unfold_M. rewrite Hp.
  destruct (decide _) as [_|]; [|done]. by rewrite Hk.
Qed.

Lemma stop_owned E id proc st :
  processes st !! id = Some proc →
  stop E id st =
    (returned true,
     with_exit_codes <[id := stop_returncode E proc]>
       (with_statuses <[id := stopped]>
          (with_processes (delete id)
             (with_trace (λ t, t ++ stop_events E proc) st)))).
Proof.
  intros Hp. unfold stop, stop_events, stop_returncode, killpg_events.
  unfold_M. rewrite Hp.
  destruct (getpgid E (pid proc)), (returncode proc) eqn:Hrc; cbn;
    try destruct (exits_within E (pid proc) 3); cbn;
    unfold with_exit_codes, with_statuses, with_processes, with_trace; cbn;
    rewrite <- ?app_assoc, ?app_nil_r, ?Hrc; done.
Qed.

(** ** Invariants *)

Lemma status_in_idle (o : option status) :
  status_in o [running; building; unmanaged] = false →
  o ≠ Some running ∧ o ≠ Some building ∧ o ≠ Some unmanaged.
Proof.
  intros H. repeat split; intros ->; cbn in H; done.
Qed.

Lemma preserves_ret {A} (I : state → Prop) (a : A) : preserves I (mret a).
Proof. by intros st. Qed.

Lemma preserves_bind {A B} (I : state → Prop) (m : M A) (k : A → M B) :
  preserves I m → (∀ a, preserves I (k a)) → preserves I (m ≫= k).
Proof.
  intros Hm Hk st HI. specialize (Hm st HI).
  unfold mbind, M_bind. destruct (m st) as [[a|e] st']; cbn in *; [|done].
  by apply Hk.
Qed.

Lemma preserves_get_bind {B} (I : state → Prop) (k : state → M B) :
  (∀ st, preserves I (k st)) → preserves I (get ≫= k).
Proof. intros Hk st HI. unfold mbind, M_bind, get. by apply Hk. Qed.

Lemma preserves_when (I : state → Prop) (c : bool) (m : M unit) :
  preserves I m → preserves I (when c m).
Proof. intros Hm. destruct c; [done|]. apply preserves_ret. Qed.

Lemma preserves_for_each {A} (I : state → Prop) (xs : list A) (body : A → M unit) :
  (∀ x, preserves I (body x)) → preserves I (for_each xs body).
Proof.
  intros Hb. induction xs as [|x xs IH]; cbn.
  - apply preserves_ret.
  - apply preserves_bind; [apply Hb | intros _; apply IH].
Qed.

Lemma preserves_emit (I : state → Prop) (e : event) :
  (∀ st f, I st → I (with_trace f st)) → preserves I (emit e).
Proof. intros H st HI. by apply H. Qed.

Lemma consistent_with_trace st f : consistent st → consistent (with_trace f st).
Proof. done. Qed.

Lemma consistent_with_logs st f : consistent st → consistent (with_logs f st).
Proof. done. Qed.

Lemma consistent_with_threads st f : consistent st → consistent (with_threads f st).
Proof. done. Qed.

Ltac lookups :=
  unfold entry;
  cbn [processes statuses exit_codes logs trace threads
       with_processes with_statuses with_exit_codes with_logs with_trace with_threads
       fst snd negb];
  rewrite ?lookup_insert, ?lookup_delete.

Lemma start_consistent E id : preserves consistent (start E id).
Proof.
  intros st Hc.
  destruct (start_paths E id st) as [?|?|info ? Hs ?|info ? Hs ? ?|info ? Hs ? ?|info child ? Hs ? ?];
    cbn [snd]; try done.
  all: apply status_in_idle in Hs as (Hr & Hb & Hu).
  all: intros id'; destruct (Hc id') as [Hh Ht]; unfold consistent_at; lookups.
  all: case_decide; subst; try done.
  - split; [|by eauto]. split; [|by intros [[=]|[=]]].
    intros Hsome. apply Hh in Hsome. by destruct Hsome.
  - split; [|by eauto]. split; [|by intros [[=]|[=]]].
    intros Hsome. apply Hh in Hsome. by destruct Hsome.
  - split; [|by eauto]. split; eauto.
Qed.

Lemma stop_consistent E id : preserves consistent (stop E id).
Proof.
  intros st Hc.
  destruct (processes st !! id) as [proc|] eqn:Hp.
  - rewrite (stop_owned _ _ _ _ Hp). cbn [snd].
    intros id'; destruct (Hc id') as [Hh Ht]; unfold consistent_at; lookups.
    case_decide; subst; [|done].
    split; [|by eauto]. split; [by intros [? [=]] | by intros [[=]|[=]]].
  - destruct (decide (statuses st !! id = Some unmanaged)) as [Hs|Hs].
    2: { by rewrite stop_nothing_to_do. }
    destruct (assoc id PROJECTS) as [info|] eqn:Hk.
    2: { by rewrite stop_unmanaged_unknown. }
    rewrite (stop_unmanaged _ _ _ _ Hp Hs Hk).
    destruct (lsof E (port info)); cbn [snd]; try done.
    all: intros id'; destruct (Hc id') as [Hh Ht]; unfold consistent_at; lookups.
    all: case_decide; subst; try done.
    all: split; [|by eauto]; split; [|by intros [[=]|[=]]].
    all: rewrite Hp; by intros [? [=]].
Qed.

Lemma update_status_consistent E pid info : preserves consistent (update_status E pid info).
Proof.
  intros st Hc. unfold update_status. unfold_M.
  destruct (processes st !! pid) as [proc|] eqn:Hp.
  - destruct (Popen_poll E proc) as [rc|].
    + destruct (decide (rc = 0)); cbn [snd].
      all: intros id'; destruct (Hc id') as [Hh Ht]; unfold consistent_at; lookups.
      all: case_decide; subst; try done.
      all: split; [|by eauto]; split; [by intros [? [=]] | by intros [[=]|[=]]].
    + destruct (_port_open E (port info)); cbn [snd].
      all: intros id'; destruct (Hc id') as [Hh Ht]; unfold consistent_at; lookups.
      all: case_decide; subst; try done.
      all: split; [|by eauto]; split; eauto.
  - destruct (statuses st !! pid) as [s|] eqn:Hs; [|done].
    destruct (decide (s = unmanaged)) as [->|Hne].
    + destruct (_port_open E (port info)); cbn [snd negb]; [done|].
      intros id'; destruct (Hc id') as [Hh Ht]; unfold consistent_at; lookups.
      case_decide; subst; [|done].
      split; [|by eauto]; split; [|by intros [[=]|[=]]]. rewrite Hp. by intros [? [=]].
    + destruct (bool_decide (s = stopped) && _port_open E (port info)) eqn:Hb;
        cbn [snd]; [|done].
      clear Hb. intros id'; destruct (Hc id') as [Hh Ht]; unfold consistent_at; lookups.
      case_decide; subst; [|done].
      split; [|by eauto]; split; [|by intros [[=]|[=]]]. rewrite Hp. by intros [? [=]].
Qed.

Lemma update_statuses_consistent E : preserves consistent (update_statuses E).
Proof.
  apply preserves_for_each. intros [pid info]. apply update_status_consistent.
Qed.

Lemma stop_all_consistent E : preserves consistent (stop_all E).
Proof.
  apply preserves_for_each. intros pid. apply preserves_get_bind. intros st.
  apply preserves_when, preserves_bind; [apply stop_consistent|].
  intros _. apply preserves_ret.
Qed.

Lemma stop_group_consistent E g : preserves consistent (stop_group E g).
Proof.
  apply preserves_for_each. intros [pid info]. apply preserves_get_bind. intros st.
  apply preserves_when, preserves_bind; [apply stop_consistent|].
  intros _. apply preserves_ret.
Qed.

Lemma run_task_consistent E t : preserves consistent (run_task E t).
Proof.
  apply preserves_for_each. intros [pid info]. apply preserves_get_bind. intros st.
  apply preserves_when, preserves_bind; [apply start_consistent|].
  intros _. apply preserves_emit. intros. by apply consistent_with_trace.
Qed.

Lemma init_project_run E pid info st :
  init_project E pid info st
  = (returned tt,
     with_exit_codes <[pid := None]>
       (with_statuses <[pid := if _port_open E (port info) then unmanaged else stopped]> st)).
Proof. unfold init_project. unfold_M. by destruct (_port_open E (port info)). Qed.

Lemma init_loop E (l : list (string * project)) st id :
  (∀ id, processes st !! id = None ∧
         statuses st !! id ≠ Some building ∧ statuses st !! id ≠ Some running) →
  (processes (for_each l (λ '(pid, info), init_project E pid info) st).2 !! id = None
   ∧ statuses (for_each l (λ '(pid, info), init_project E pid info) st).2 !! id ≠ Some building
   ∧ statuses (for_each l (λ '(pid, info), init_project E pid info) st).2 !! id ≠ Some running)
  ∧ (is_Some (assoc id l) ∨ is_Some (statuses st !! id) →
     is_Some (statuses (for_each l (λ '(pid, info), init_project E pid info) st).2 !! id)).
Proof.
  revert st. induction l as [|[pid info] l IH]; intros st Hst; cbn [for_each].
  - split; [apply Hst|]. intros [[? [=]]|?]; done.
  - unfold mbind at 1 2 3 4. unfold M_bind at 1 2 3 4. rewrite init_project_run.
    cbv beta iota.
    set (st1 := with_exit_codes <[pid:=None]> _).
    assert (∀ id, processes st1 !! id = None ∧
                 statuses st1 !! id ≠ Some building ∧ statuses st1 !! id ≠ Some running) as H1.
    { intros id'. destruct (Hst id') as (? & ? & ?). subst st1.
      lookups. destruct (_port_open _ _); case_decide; done. }
    destruct (IH st1 H1) as [Ha Hb]. split; [done|].
    intros Hor. apply Hb. cbn [assoc] in Hor.
    destruct (decide (pid = id)) as [->|Hne].
    + right. subst st1. lookups. rewrite decide_True by done. by eauto.
    + destruct Hor as [Hor|Hor]; [by left|].
      right. subst st1. lookups. by rewrite decide_False by done.
Qed.

Lemma init_consistent E fs : consistent (ProjectManager_init E fs).
Proof.
  intros id. unfold ProjectManager_init.
  edestruct (init_loop E PROJECTS) with (id := id) as [(Hp & Hb & Hr) Ht];
    [|split; [rewrite Hp; split; [by intros [? [=]] | by intros [?|?]] | by eauto]].
  intros id'. cbn. by rewrite !lookup_empty.
Qed.

Lemma reachable_consistent st : reachable st → consistent st.
Proof.
  induction 1.
  - apply init_consistent.
  - by apply start_consistent.
  - by apply stop_consistent.
  - by apply update_statuses_consistent.
  - done.
  - by apply stop_all_consistent.
  - done.
  - by apply stop_group_consistent.
  - by apply run_task_consistent.
  - done.
Qed.

(** ** Frames: a method called for one project leaves the others alone *)

Lemma touches_only_ret {A} id (a : A) : touches_only id (mret a).
Proof. by intros st id' _. Qed.

Lemma start_touches_only E id : touches_only id (start E id).
Proof.
  intros st id' Hne. destruct (start_paths E id st); lookups; try done.
  all: by rewrite ?decide_False by done.
Qed.

Lemma stop_touches_only E id : touches_only id (stop E id).
Proof.
  intros st id' Hne.
  destruct (processes st !! id) as [proc|] eqn:Hp.
  - rewrite (stop_owned _ _ _ _ Hp). lookups. by rewrite ?decide_False by done.
  - destruct (decide (statuses st !! id = Some unmanaged)) as [Hs|Hs].
    2: { by rewrite stop_nothing_to_do. }
    destruct (assoc id PROJECTS) as [info|] eqn:Hk.
    2: { by rewrite stop_unmanaged_unknown. }
    rewrite (stop_unmanaged _ _ _ _ Hp Hs Hk).
    destruct (lsof E (port info)); lookups; try done.
    all: by rewrite ?decide_False by done.
Qed.

Lemma update_status_touches_only E pid info : touches_only pid (update_status E pid info).
Proof.
  intros st id' Hne. unfold update_status. unfold_M.
  destruct (processes st !! pid) as [proc|].
  - destruct (Popen_poll E proc) as [rc|].
    + destruct (decide (rc = 0)); lookups; by rewrite ?decide_False by done.
    + destruct (_port_open E (port info)); lookups; by rewrite ?decide_False by done.
  - destruct (statuses st !! pid) as [s|]; [|done].
    destruct (decide (s = unmanaged)).
    + destruct (_port_open E (port info)); lookups; [done|].
      by rewrite ?decide_False by done.
    + destruct (bool_decide (s = stopped) && _port_open E (port info));
        lookups; [|done].
      by rewrite ?decide_False by done.
Qed.

(** A loop whose body for [x] only touches the project [key x] leaves
    the projects it does not visit alone. *)
Lemma for_each_frame {A} (key : A → string) (xs : list A) (body : A → M unit) st id :
  (∀ x, touches_only (key x) (body x)) →
  id ∉ key <$> xs →
  entry (for_each xs body st).2 id = entry st id.
Proof.
  intros Hb. revert st. induction xs as [|x xs IH]; intros st Hid; [done|].
  rewrite fmap_cons in Hid. apply not_elem_of_cons in Hid as [Hne Hid].
  cbn [for_each]. unfold mbind, M_bind.
  pose proof (Hb x st id Hne) as Hx.
  destruct (body x st) as [[[]|e] st1]; cbn [snd] in *; [|done].
  by rewrite IH.
Qed.

(** ** The reconciliation step for one project *)

Lemma update_status_returns E pid info st :
  is_Some (statuses st !! pid) →
  (update_status E pid info st).1 = returned tt.
Proof.
  intros [s Hs]. unfold update_status. unfold_M.
  destruct (processes st !! pid) as [proc|].
  - destruct (Popen_poll E proc) as [rc|];
      [destruct (decide (rc = 0)) | destruct (_port_open E (port info))]; done.
  - rewrite Hs. destruct (decide (s = unmanaged));
      [destruct (negb _) | destruct (_ && _)]; done.
Qed.

Lemma update_status_local E pid info s1 s2 :
  entry s1 pid = entry s2 pid →
  entry (update_status E pid info s1).2 pid = entry (update_status E pid info s2).2 pid.
Proof.
  unfold entry. intros [= Hp Hs He]. unfold update_status. unfold_M.
  rewrite Hp. destruct (processes s2 !! pid) as [proc|] eqn:Hp2.
  - destruct (Popen_poll E proc) as [rc|].
    + destruct (decide (rc = 0)); lookups; by rewrite ?decide_True by done.
    + destruct (_port_open E (port info)); lookups; rewrite ?decide_True by done;
        by rewrite Hp, He, Hp2.
  - rewrite Hs. destruct (statuses s2 !! pid) as [s|] eqn:Hs2;
      [|lookups; by rewrite ?Hp, ?Hs, ?He, ?Hp2, ?Hs2].
    destruct (decide (s = unmanaged)).
    + destruct (_port_open E (port info)); lookups; rewrite ?decide_True by done;
        by rewrite ?Hp, ?Hs, ?He, ?Hp2, ?Hs2.
    + destruct (bool_decide (s = stopped) && _port_open E (port info));
        lookups; rewrite ?decide_True by done; by rewrite ?Hp, ?Hs, ?He, ?Hp2, ?Hs2.
Qed.

Lemma update_status_table E pid info st cur :
  consistent_at st pid →
  statuses st !! pid = Some cur →
  statuses (update_status E pid info st).2 !! pid
    = transition_table cur (handle_signal_of E st pid) (_port_open E (port info))
  ∧ match handle_signal_of E st pid with
    | exited_with rc =>
        exit_codes (update_status E pid info st).2 !! pid = Some (Some rc)
        ∧ processes (update_status E pid info st).2 !! pid = None
    | still_running =>
        exit_codes (update_status E pid info st).2 !! pid = exit_codes st !! pid
        ∧ processes (update_status E pid info st).2 !! pid = processes st !! pid
    | no_handle =>
        exit_codes (update_status E pid info st).2 !! pid = exit_codes st !! pid
        ∧ processes (update_status E pid info st).2 !! pid = None
    end.
Proof.
  intros [Hh _] Hs. unfold update_status, handle_signal_of. unfold_M.
  destruct (processes st !! pid) as [proc|] eqn:Hp.
  - assert (cur = building ∨ cur = running) as Hcur.
    { destruct Hh as [Hh _]. destruct Hh as [H|H]; [by eauto| |];
        rewrite Hs in H; injection H as ->; eauto. }
    destruct (Popen_poll E proc) as [rc|].
    + destruct (decide (rc = 0)); lookups; rewrite ?decide_True by done;
        destruct Hcur as [-> | ->]; cbn; by rewrite ?decide_True, ?decide_False by done.
    + destruct (_port_open E (port info)); lookups; rewrite ?decide_True by done;
        destruct Hcur as [-> | ->]; by rewrite Hp.
  - assert (cur ≠ building ∧ cur ≠ running) as [Hb Hr].
    { destruct Hh as [_ Hh]. rewrite Hs in Hh.
      split; intros ->; destruct Hh as [? [=]]; eauto. }
    rewrite Hs.
    destruct (decide (cur = unmanaged)) as [->|Hu].
    + destruct (_port_open E (port info)); lookups; rewrite ?decide_True by done;
        by rewrite ?Hs, ?Hp.
    + destruct cur; try done;
        rewrite ?bool_decide_eq_true_2, ?bool_decide_eq_false_2 by done;
        destruct (_port_open E (port info)); cbn [andb transition_table];
        lookups; rewrite ?decide_True by done; by rewrite ?Hs, ?Hp.
Qed.

Lemma registered_in (l : list (string * project)) pid info :
  (pid, info) ∈ l → is_Some (assoc pid l).
Proof.
  induction l as [|[k v] l IH]; [by intros ?%elem_of_nil|].
  intros Hin. cbn. destruct (decide (k = pid)); [by eauto|].
  apply elem_of_cons in Hin as [[= -> ->]|Hin]; [done|by apply IH].
Qed.

Lemma PROJECTS_NoDup : NoDup PROJECTS.*1.
Proof. apply (bool_decide_unpack _). by vm_compute. Qed.

(** One pass of a loop of [update_status] gives every visited project
    what [update_status] alone gives it. *)
Lemma update_loop E (l : list (string * project)) st :
  consistent st →
  NoDup l.*1 →
  (∀ pid info, (pid, info) ∈ l → is_Some (assoc pid PROJECTS)) →
  (for_each l (λ '(pid, info), update_status E pid info) st).1 = returned tt
  ∧ ∀ pid info, (pid, info) ∈ l →
      entry (for_each l (λ '(pid, info), update_status E pid info) st).2 pid
      = entry (update_status E pid info st).2 pid.
Proof.
  revert st. induction l as [|[p i] l IH]; intros st Hc Hnd Hreg.
  { split; [done|]. by intros ?? ?%elem_of_nil. }
  rewrite fmap_cons in Hnd. apply NoDup_cons in Hnd as [Hp Hnd].
  cbn [for_each]. unfold mbind, M_bind.
  pose proof (update_status_returns E p i st) as Hret.
  pose proof (update_status_consistent E p i st Hc) as Hc1.
  pose proof (update_status_touches_only E p i st) as Hfr.
  destruct (update_status E p i st) as [r st1] eqn:Hrun. cbn [fst snd] in *.
  rewrite Hret; [|apply (Hc p), (Hreg p i); by left].
  destruct (IH st1 Hc1 Hnd) as [IHr IHe].
  { intros pid info Hin. apply (Hreg pid info). by right. }
  split; [done|]. intros pid info Hin.
  apply elem_of_cons in Hin as [[= -> ->]|Hin].
  - rewrite Hrun. cbn [snd].
    apply (for_each_frame (λ x : string * project, x.1)); [|done].
    intros [p' i']. apply update_status_touches_only.
  - rewrite (IHe pid info Hin). apply update_status_local, Hfr.
    intros ->. apply Hp. apply list_elem_of_fmap. by exists (p, info).
Qed.

(** ** The handle invariant, operation by operation *)

Lemma start_handle_inv E id : preserves handle_inv (start E id).
Proof.
  intros st Hc.
  destruct (start_paths E id st) as [?|?|info ? Hs ?|info ? Hs ? ?|info ? Hs ? ?|info child ? Hs ? ?];
    cbn [snd]; try done.
  all: apply status_in_idle in Hs as (Hr & Hb & Hu).
  all: intros id'; specialize (Hc id'); lookups.
  all: case_decide; subst; try done.
  - intros Hsome. apply Hc in Hsome. by destruct Hsome.
  - intros Hsome. apply Hc in Hsome. by destruct Hsome.
  - eauto.
Qed.

Lemma stop_handle_inv E id : preserves handle_inv (stop E id).
Proof.
  intros st Hc.
  destruct (processes st !! id) as [proc|] eqn:Hp.
  - rewrite (stop_owned _ _ _ _ Hp). cbn [snd].
    intros id'; specialize (Hc id'); lookups.
    case_decide; subst; [|done]. by intros [? [=]].
  - destruct (decide (statuses st !! id = Some unmanaged)) as [Hs|Hs].
    2: { by rewrite stop_nothing_to_do. }
    destruct (assoc id PROJECTS) as [info|] eqn:Hk.
    2: { by rewrite stop_unmanaged_unknown. }
    rewrite (stop_unmanaged _ _ _ _ Hp Hs Hk).
    destruct (lsof E (port info)); cbn [snd]; try done.
    all: intros id'; specialize (Hc id'); lookups.
    all: case_decide; subst; try done.
    all: rewrite Hp; by intros [? [=]].
Qed.

Lemma update_status_handle_inv E pid info : preserves handle_inv (update_status E pid info).
Proof.
  intros st Hc. unfold update_status. unfold_M.
  destruct (processes st !! pid) as [proc|] eqn:Hp.
  - destruct (Popen_poll E proc) as [rc|].
    + destruct (decide (rc = 0)); cbn [snd].
      all: intros id'; specialize (Hc id'); lookups.
      all: case_decide; subst; try done.
      all: by intros [? [=]].
    + destruct (_port_open E (port info)); cbn [snd].
      all: intros id'; specialize (Hc id'); lookups.
      all: case_decide; subst; eauto.
  - destruct (statuses st !! pid) as [s|] eqn:Hs; [|done].
    destruct (decide (s = unmanaged)) as [->|Hne].
    + destruct (_port_open E (port info)); cbn [snd negb]; [done|].
      intros id'; specialize (Hc id'); lookups.
      case_decide; subst; [|done]. rewrite Hp. by intros [? [=]].
    + destruct (bool_decide (s = stopped) && _port_open E (port info)) eqn:Hb;
        cbn [snd]; [|done].
      clear Hb. intros id'; specialize (Hc id'); lookups.
      case_decide; subst; [|done]. rewrite Hp. by intros [? [=]].
Qed.

Lemma update_statuses_handle_inv E : preserves handle_inv (update_statuses E).
Proof.
  apply preserves_for_each. intros [pid info]. apply update_status_handle_inv.
Qed.

Lemma consistent_handle_inv st : consistent st → handle_inv st.
Proof. intros Hc id Hsome. by apply (Hc id). Qed.

(** ** Loops of [stop] *)

Lemma for_each_ext {A} (xs : list A) (f g : A → M unit) st :
  (∀ x st, f x st = g x st) → for_each xs f st = for_each xs g st.
Proof.
  intros Hfg. revert st. induction xs as [|x xs IH]; intros st; [done|].
  cbn [for_each]. unfold mbind, M_bind. rewrite Hfg.
  destruct (g x st) as [[[]|e] st1]; [apply IH|done].
Qed.

Lemma stop_threads E id st : threads (stop E id st).2 = threads st.
Proof.
  destruct (processes st !! id) as [proc|] eqn:Hp.
  - by rewrite (stop_owned _ _ _ _ Hp).
  - destruct (decide (statuses st !! id = Some unmanaged)) as [Hs|Hs].
    2: { by rewrite stop_nothing_to_do. }
    destruct (assoc id PROJECTS) as [info|] eqn:Hk.
    2: { by rewrite stop_unmanaged_unknown. }
    rewrite (stop_unmanaged _ _ _ _ Hp Hs Hk). by destruct (lsof E (port info)).
Qed.

(** [if sel and self.statuses.get(id) in (...): self.stop(id)] *)
Lemma stop_when_live_idle E id (c : bool) st :
  consistent st →
  c = true →
  (when (c && status_in (statuses st !! id) [running; building; unmanaged])
     (stop E id ;; mret tt) st).1 = returned tt →
  status_in (statuses (when (c && status_in (statuses st !! id) [running; building; unmanaged])
                         (stop E id ;; mret tt) st).2 !! id)
            [running; building; unmanaged] = false.
Proof.
  intros Hc -> . cbn [andb].
  destruct (status_in (statuses st !! id) [running; building; unmanaged]) eqn:Hlive;
    cbn [when]; [|done].
  unfold mbind, M_bind.
  destruct (processes st !! id) as [proc|] eqn:Hp.
  - rewrite (stop_owned _ _ _ _ Hp). unfold mret, M_ret. lookups.
    by rewrite decide_True.
  - apply status_in_busy in Hlive. destruct (Hc id) as [Hh _].
    assert (statuses st !! id = Some unmanaged) as Hs.
    { destruct Hlive as [H|[H|H]]; [| |done];
        (destruct Hh as [_ Hh]; rewrite Hp in Hh; destruct Hh as [? [=]]; by eauto). }
    destruct (assoc id PROJECTS) as [info|] eqn:Hk.
    2: { by rewrite stop_unmanaged_unknown. }
    rewrite (stop_unmanaged _ _ _ _ Hp Hs Hk).
    destruct (lsof E (port info)); unfold mret, M_ret; lookups;
      rewrite ?decide_True by done; done.
Qed.

Lemma stop_when_live_touches_only E id (c : bool) st :
  touches_only id (when (c && status_in (statuses st !! id) [running; building; unmanaged])
                     (stop E id ;; mret tt)).
Proof.
  destruct (c && _); cbn [when]; [|apply touches_only_ret].
  intros st' id' Hne. unfold mbind, M_bind.
  pose proof (stop_touches_only E id st' id' Hne) as H.
  by destruct (stop E id st') as [[b|e] st1].
Qed.

Lemma stop_when_live_consistent E id (c : bool) st :
  preserves consistent (when (c && status_in (statuses st !! id) [running; building; unmanaged])
                          (stop E id ;; mret tt)).
Proof.
  apply preserves_when, preserves_bind; [apply stop_consistent|].
  intros _. apply preserves_ret.
Qed.

Lemma stop_when_live_keeps_idle E id (c : bool) id' :
  preserves (λ s, status_in (statuses s !! id') [running; building; unmanaged] = false)
    (st ← get;
     when (c && status_in (statuses st !! id) [running; building; unmanaged])
       (stop E id ;; mret tt)).
Proof.
  intros st Hidle. unfold mbind at 1, M_bind at 1, get at 1.
  destruct (decide (id' = id)) as [->|Hne].
  - rewrite Hidle, andb_false_r. done.
  - pose proof (stop_when_live_touches_only E id c st st id' Hne) as [= _ Hs _].
    by rewrite Hs.
Qed.

Lemma stop_loop_idle {A} E (key : A → string) (sel : A → bool) (xs : list A) st :
  consistent st →
  (for_each xs (λ x, st ← get;
      when (sel x && status_in (statuses st !! key x) [running; building; unmanaged])
        (stop E (key x) ;; mret tt)) st).1 = returned tt →
  ∀ x, x ∈ xs → sel x = true →
    status_in (statuses (for_each xs (λ x, st ← get;
      when (sel x && status_in (statuses st !! key x) [running; building; unmanaged])
        (stop E (key x) ;; mret tt)) st).2 !! key x)
      [running; building; unmanaged] = false.
Proof.
  revert st. induction xs as [|y xs IH]; intros st Hc Hret x Hin Hsel.
  { by apply elem_of_nil in Hin. }
  cbn [for_each] in *. unfold mbind at 1, M_bind at 1 in Hret.
  unfold mbind at 1, M_bind at 1.
  unfold mbind at 1, M_bind at 1, get at 1 in Hret.
  unfold mbind at 1, M_bind at 1, get at 1.
  pose proof (stop_when_live_idle E (key y) (sel y) st Hc) as Hidle.
  pose proof (stop_when_live_consistent E (key y) (sel y) st st Hc) as Hc1.
  destruct (when _ _ st) as [[[]|e] st1]; cbn [fst snd] in *; [|done].
  apply elem_of_cons in Hin as [->|Hin]; [|by apply IH].
  apply (preserves_for_each
           (λ s, status_in (statuses s !! key y) [running; building; unmanaged] = false)).
  - intros x. apply stop_when_live_keeps_idle.
  - by apply Hidle.
Qed.

Lemma stop_loop_threads {A} E (key : A → string) (sel : A → bool) (xs : list A) st :
  threads (for_each xs (λ x, st ← get;
      when (sel x && status_in (statuses st !! key x) [running; building; unmanaged])
        (stop E (key x) ;; mret tt)) st).2 = threads st.
Proof.
  apply (preserves_for_each (λ s, threads s = threads st)); [|done].
  intros x. apply preserves_get_bind. intros st0.
  apply preserves_when, preserves_bind; [|intros _; apply preserves_ret].
  intros s Hs. by rewrite stop_threads.
Qed.

(** ** Ids outside the registry *)

Lemma assoc_None {A} (l : list (string * A)) id :
  assoc id l = None → id ∉ l.*1.
Proof.
  induction l as [|[k v] l IH]; cbn; [intros _ ?%elem_of_nil; done|].
  destruct (decide (k = id)) as [->|Hne]; [done|].
  intros Hl [->|Hin]%elem_of_cons; [done|]. by apply IH.
Qed.

Lemma preserves_for_each_in {A} (I : state → Prop) (xs : list A) (body : A → M unit) :
  (∀ x, x ∈ xs → preserves I (body x)) → preserves I (for_each xs body).
Proof.
  induction xs as [|x xs IH]; intros Hb; cbn [for_each].
  - apply preserves_ret.
  - apply preserves_bind; [apply Hb; by left|].
    intros _. apply IH. intros y Hy. apply Hb. by right.
Qed.

Lemma untracked_frame {A} id id' (m : M A) st :
  touches_only id m → id' ≠ id → untracked id' st → untracked id' (m st).2.
Proof.
  intros Hm Hne [Hp Hs]. specialize (Hm st id' Hne).
  pose proof (f_equal (λ e, e.1.1) Hm) as Hp'.
  pose proof (f_equal (λ e, e.1.2) Hm) as Hs'.
  unfold entry in Hp', Hs'. cbn [fst snd] in Hp', Hs'.
  split; congruence.
Qed.

Lemma start_keeps_untracked E id id' :
  assoc id' PROJECTS = None → preserves (untracked id') (start E id).
Proof.
  intros Hk st Hu. destruct (decide (id' = id)) as [->|Hne].
  - by rewrite start_unknown.
  - apply (untracked_frame id); [apply start_touches_only|done|done].
Qed.

Lemma stop_keeps_untracked E id id' : preserves (untracked id') (stop E id).
Proof.
  intros st Hu. destruct (decide (id' = id)) as [->|Hne].
  - destruct Hu as [Hp Hs]. rewrite stop_nothing_to_do; [done..|]. by rewrite Hs.
  - apply (untracked_frame id); [apply stop_touches_only|done|done].
Qed.

Lemma update_statuses_keeps_untracked E id' :
  assoc id' PROJECTS = None → preserves (untracked id') (update_statuses E).
Proof.
  intros Hk%assoc_None. apply preserves_for_each_in. intros [pid info] Hin st Hu.
  apply (untracked_frame pid); [apply update_status_touches_only| |done].
  intros ->. apply Hk, list_elem_of_fmap. by exists (pid, info).
Qed.

Lemma init_untracked E fs id :
  assoc id PROJECTS = None → untracked id (ProjectManager_init E fs).
Proof.
  intros Hk%assoc_None. unfold ProjectManager_init.
  pose proof (for_each_frame (λ x : string * project, x.1) PROJECTS
                (λ '(pid, info), init_project E pid info)
                {| processes := ∅; statuses := ∅; exit_codes := ∅;
                   logs := fs; trace := []; threads := [] |} id) as Hfr.
  pose proof (λ H, f_equal (λ e, e.1.1) (Hfr H Hk)) as Hp.
  pose proof (λ H, f_equal (λ e, e.1.2) (Hfr H Hk)) as Hs.
  unfold entry in Hp, Hs. cbn [fst snd processes statuses] in Hp, Hs.
  assert (∀ x : string * project,
            touches_only x.1 (let '(pid, info) := x in init_project E pid info)) as Hto.
  { intros [pid info] st id' Hne. rewrite init_project_run. lookups.
    by rewrite !decide_False by done. }
  split; [rewrite (Hp Hto) | rewrite (Hs Hto)]; apply lookup_empty.
Qed.

Lemma reachable_untracked st id :
  reachable st → assoc id PROJECTS = None → untracked id st.
Proof.
  intros Hreach Hk. induction Hreach.
  - by apply init_untracked.
  - by apply start_keeps_untracked.
  - by apply stop_keeps_untracked.
  - by apply update_statuses_keeps_untracked.
  - done.
  - revert IHHreach. apply preserves_for_each. intros pid.
    apply preserves_get_bind. intros st0.
    apply preserves_when, preserves_bind; [apply stop_keeps_untracked|].
    intros _. apply preserves_ret.
  - done.
  - revert IHHreach. apply preserves_for_each. intros [pid info].
    apply preserves_get_bind. intros st0.
    apply preserves_when, preserves_bind; [apply stop_keeps_untracked|].
    intros _. apply preserves_ret.
  - revert IHHreach. apply preserves_for_each. intros [pid info].
    apply preserves_get_bind. intros st0.
    apply preserves_when, preserves_bind; [by apply start_keeps_untracked|].
    intros _. by apply preserves_emit.
  - done.
Qed.

(** * The claims *)

(** ** Reconciliation *)

(** C1.  One pass of [update_statuses] returns and moves every project
    of the registry along the transition table of the specification,
    read at the project's current status, its owned-handle signal and
    the liveness of its port: an owned handle that exited with code 0
    gives [stopped], with any other code [error], and in both cases the
    code is recorded and the handle released; an owned handle that has
    not exited gives [running] when the port is live and [building]
    when it is not; without a handle [unmanaged] becomes [stopped] when
    the port is dead and stays otherwise, [stopped] becomes [unmanaged]
    when the port is live and stays otherwise, and [error] stays. *)
Theorem update_statuses_transition_table E st pid info :
  reachable st →
  (pid, info) ∈ PROJECTS →
  ∃ cur new,
    statuses st !! pid = Some cur
    ∧ (update_statuses E st).1 = returned tt
    ∧ transition_table cur (handle_signal_of E st pid) (_port_open E (port info)) = Some new
    ∧ statuses (update_statuses E st).2 !! pid = Some new
    ∧ match handle_signal_of E st pid with
      | exited_with rc =>
          exit_codes (update_statuses E st).2 !! pid = Some (Some rc)
          ∧ processes (update_statuses E st).2 !! pid = None
      | still_running =>
          exit_codes (update_statuses E st).2 !! pid = exit_codes st !! pid
          ∧ processes (update_statuses E st).2 !! pid = processes st !! pid
      | no_handle =>
          exit_codes (update_statuses E st).2 !! pid = exit_codes st !! pid
          ∧ processes (update_statuses E st).2 !! pid = None
      end.
Proof.
  intros Hreach Hin. pose proof (reachable_consistent _ Hreach) as Hc.
  destruct (Hc pid) as [_ Htracked].
  destruct Htracked as [cur Hcur]; [by eapply registered_in|].
  destruct (update_loop E PROJECTS st Hc PROJECTS_NoDup) as [Hret Hentry].
  { intros p i Hp. by eapply registered_in. }
  specialize (Hentry pid info Hin).
  pose proof (f_equal (λ e, e.1.1) Hentry) as Hp.
  pose proof (f_equal (λ e, e.1.2) Hentry) as Hs.
  pose proof (f_equal snd Hentry) as He.
  unfold entry in Hp, Hs, He. cbn [fst snd] in Hp, Hs, He. clear Hentry.
  destruct (update_status_table E pid info st cur (Hc pid) Hcur) as [Htab Hrest].
  pose proof (update_statuses_consistent E st Hc pid) as [_ Htracked'].
  destruct Htracked' as [new Hnew]; [by eapply registered_in|].
  exists cur, new. unfold update_statuses in *.
  split; [done|]. split; [done|].
  split; [by rewrite <- Htab, <- Hs|]. split; [done|].
  rewrite Hp, He. exact Hrest.
Qed.

Lemma update_statuses_transition_table_witness :
  ∃ cur new,
    statuses st_welcome_building !! "welcome" = Some cur
    ∧ (update_statuses E_busy st_welcome_building).1 = returned tt
    ∧ transition_table cur (handle_signal_of E_busy st_welcome_building "welcome")
        (_port_open E_busy 8080) = Some new
    ∧ statuses (update_statuses E_busy st_welcome_building).2 !! "welcome" = Some new
    ∧ match handle_signal_of E_busy st_welcome_building "welcome" with
      | exited_with rc =>
          exit_codes (update_statuses E_busy st_welcome_building).2 !! "welcome" = Some (Some rc)
          ∧ processes (update_statuses E_busy st_welcome_building).2 !! "welcome" = None
      | still_running =>
          exit_codes (update_statuses E_busy st_welcome_building).2 !! "welcome"
            = exit_codes st_welcome_building !! "welcome"
          ∧ processes (update_statuses E_busy st_welcome_building).2 !! "welcome"
            = processes st_welcome_building !! "welcome"
      | no_handle =>
          exit_codes (update_statuses E_busy st_welcome_building).2 !! "welcome"
            = exit_codes st_welcome_building !! "welcome"
          ∧ processes (update_statuses E_busy st_welcome_building).2 !! "welcome" = None
      end.
Proof.
  apply (update_statuses_transition_table E_busy st_welcome_building "welcome"
           (mk "Welcome" 8080 "WELCOME" "MAIN")).
  - apply reach_start, reach_init.
  - apply list_elem_of_here.
Defined.

(** ** [start] *)

(** C2.  [start] on an id that is not in the registry, or on a project
    that is running, building or unmanaged, returns [False] and leaves
    the whole state as it was: no status, handle, exit code or log file
    changes and nothing is spawned.  At an observation point, a [start]
    that does anything else was called on a project of the registry
    that was stopped or in error. *)
Theorem start_refused_unless_ready E id st :
  (assoc id PROJECTS = None
   ∨ statuses st !! id = Some running
   ∨ statuses st !! id = Some building
   ∨ statuses st !! id = Some unmanaged →
   start E id st = (returned false, st))
  ∧ (reachable st →
     start E id st ≠ (returned false, st) →
     is_Some (assoc id PROJECTS)
     ∧ (statuses st !! id = Some stopped ∨ statuses st !! id = Some error)).
Proof.
  split.
  - intros [Hk|Hs]; [by apply start_unknown|].
    apply start_busy, status_in_busy. tauto.
  - intros Hreach Hne.
    destruct (assoc id PROJECTS) as [info|] eqn:Hk.
    2: { by rewrite start_unknown in Hne. }
    split; [by eauto|].
    destruct (reachable_consistent _ Hreach id) as [_ [s Hs]]; [by eauto|].
    destruct s; eauto; exfalso; apply Hne, start_busy; by rewrite Hs.
Qed.

Lemma start_refused_unless_ready_witness :
  start E_quiet "welcome" st_welcome_building = (returned false, st_welcome_building)
  ∧ start E_quiet "no-such-project" st_fresh = (returned false, st_fresh)
  ∧ is_Some (assoc "welcome" PROJECTS)
  ∧ (statuses st_fresh !! "welcome" = Some stopped
     ∨ statuses st_fresh !! "welcome" = Some error).
Proof.
  split; [|split].
  - apply (proj1 (start_refused_unless_ready E_quiet "welcome" st_welcome_building)).
    right. right. left. by vm_compute.
  - apply (proj1 (start_refused_unless_ready E_quiet "no-such-project" st_fresh)).
    left. by vm_compute.
  - apply (proj2 (start_refused_unless_ready E_quiet "welcome" st_fresh)).
    + apply reach_init.
    + intros H. apply (f_equal fst) in H. vm_compute in H. discriminate H.
Defined.

(** C7.  A [start] of a stopped or failed project that returns [True]
    has spawned a child: the handle of that child is recorded, the
    status is [building] and the exit code is [None]. *)
Theorem start_success E id st st' :
  statuses st !! id = Some stopped ∨ statuses st !! id = Some error →
  start E id st = (returned true, st') →
  ∃ info child,
    assoc id PROJECTS = Some info
    ∧ popen E (project_dir E info) (port info) = spawned child
    ∧ processes st' !! id = Some (new_handle child)
    ∧ statuses st' !! id = Some building
    ∧ exit_codes st' !! id = Some None
    ∧ trace st' = trace st ++ [EvPopen (project_dir E info) (port info)
                                  (log_file_of E id) child].
Proof.
  intros _ Hrun. destruct (start_paths E id st) as [| | | | |info child Hk Hs Hm Hp];
    try discriminate Hrun.
  injection Hrun as <-. exists info, child. lookups.
  by rewrite !decide_True.
Qed.

Lemma start_success_witness :
  ∃ info child,
    assoc "welcome" PROJECTS = Some info
    ∧ popen E_quiet (project_dir E_quiet info) (port info) = spawned child
    ∧ processes st_welcome_building !! "welcome" = Some (new_handle child)
    ∧ statuses st_welcome_building !! "welcome" = Some building
    ∧ exit_codes st_welcome_building !! "welcome" = Some None
    ∧ trace st_welcome_building
      = trace st_fresh ++ [EvPopen (project_dir E_quiet info) (port info)
                             (log_file_of E_quiet "welcome") child].
Proof.
  apply (start_success E_quiet "welcome" st_fresh st_welcome_building).
  - left. by vm_compute.
  - unfold st_welcome_building. by destruct (start E_quiet "welcome" st_fresh) eqn:H;
      vm_compute in H; injection H as <- <-.
Defined.

(** C8, as the code has it.  For a project of the registry that is
    stopped or in error: when its directory holds neither [index.html]
    nor [Trunk.toml], or when [Popen] raises FileNotFoundError, [start]
    sets the status to [error], returns [False] and leaves [processes]
    as it was, and nothing is spawned. *)
Theorem start_failure E id info st :
  assoc id PROJECTS = Some info →
  statuses st !! id = Some stopped ∨ statuses st !! id = Some error →
  has_marker E info = false
  ∨ popen E (project_dir E info) (port info) = file_not_found →
  (start E id st).1 = returned false
  ∧ statuses (start E id st).2 !! id = Some error
  ∧ processes (start E id st).2 = processes st
  ∧ trace (start E id st).2 = trace st.
Proof.
  intros Hk Hs%status_in_ready Hfail.
  destruct (has_marker E info) eqn:Hm.
  - destruct Hfail as [|Hp]; [done|].
    rewrite (start_file_not_found _ _ _ _ Hk Hs Hm Hp). lookups.
    by rewrite decide_True.
  - rewrite (start_no_marker _ _ _ _ Hk Hs Hm). lookups. by rewrite decide_True.
Qed.

Lemma start_failure_witness :
  (start E_quiet "welcome" st_fresh).1 = returned true
  ∧ ((start E_no_marker "welcome" st_fresh).1 = returned false
     ∧ statuses (start E_no_marker "welcome" st_fresh).2 !! "welcome" = Some error
     ∧ processes (start E_no_marker "welcome" st_fresh).2 = processes st_fresh
     ∧ trace (start E_no_marker "welcome" st_fresh).2 = trace st_fresh).
Proof.
  split; [by vm_compute|].
  apply (start_failure E_no_marker "welcome" (mk "Welcome" 8080 "WELCOME" "MAIN") st_fresh).
  - by vm_compute.
  - left. by vm_compute.
  - left. by vm_compute.
Defined.

(** C8, as stated, fails: when [Popen] raises an OSError other than
    FileNotFoundError (PermissionError: the OS refuses to run the tool),
    [start] raises; it returns nothing and the status stays [stopped]. *)
Lemma start_permission_denied_raises :
  ¬ (∀ E id info st,
       assoc id PROJECTS = Some info →
       statuses st !! id = Some stopped ∨ statuses st !! id = Some error →
       has_marker E info = false
       ∨ (∀ child, popen E (project_dir E info) (port info) ≠ spawned child) →
       (start E id st).1 = returned false
       ∧ statuses (start E id st).2 !! id = Some error
       ∧ processes (start E id st).2 = processes st).
Proof.
  intros H.
  destruct (H E_permission_denied "welcome" (mk "Welcome" 8080 "WELCOME" "MAIN") st_fresh)
    as [Hret _].
  - by vm_compute.
  - left. by vm_compute.
  - right. intros child. by vm_compute.
  - vm_compute in Hret. discriminate Hret.
Qed.

(** C6, as the code has it.  A [start] that returns [True] has opened
    the project's log file for writing: the file is empty, whatever it
    held before, and every other file is as it was; what the child then
    writes is all the file holds. *)
Theorem start_truncates_log E id st st' :
  start E id st = (returned true, st') →
  logs st' !! log_file_of E id = Some []
  ∧ (∀ path, path ≠ log_file_of E id → logs st' !! path = logs st !! path)
  ∧ ∀ lines,
      logs (for_each lines (child_writes (log_file_of E id)) st').2 !! log_file_of E id
      = Some lines.
Proof.
  intros Hrun. destruct (start_paths E id st) as [| | | | |info child Hk Hs Hm Hp];
    try discriminate Hrun.
  injection Hrun as <-. lookups. split; [by rewrite decide_True|].
  split; [intros path Hne; by rewrite lookup_insert_ne by congruence|].
  set (st1 := with_exit_codes _ _).
  assert (logs st1 !! log_file_of E id = Some []) as Hlog.
  { subst st1. lookups. by rewrite decide_True. }
  clearbody st1. intros lines.
  assert (∀ pre st2, logs st2 !! log_file_of E id = Some pre →
            logs (for_each lines (child_writes (log_file_of E id)) st2).2
              !! log_file_of E id = Some (pre ++ lines)) as Hloop.
  { induction lines as [|l lines IH]; intros pre st2 Hpre; cbn [for_each].
    - unfold mret, M_ret. cbn [snd]. by rewrite app_nil_r.
    - unfold mbind, M_bind, child_writes, modify.
      rewrite (IH (pre ++ [l])); [by rewrite <- app_assoc|].
      lookups. by rewrite decide_True, Hpre. }
  apply (Hloop [] st1 Hlog).
Qed.

Lemma start_truncates_log_witness :
  logs (start E_quiet "welcome" st_old_log).2 !! log_file_of E_quiet "welcome" = Some []
  ∧ (∀ path, path ≠ log_file_of E_quiet "welcome" →
       logs (start E_quiet "welcome" st_old_log).2 !! path = logs st_old_log !! path)
  ∧ ∀ lines,
      logs (for_each lines (child_writes (log_file_of E_quiet "welcome"))
              (start E_quiet "welcome" st_old_log).2).2 !! log_file_of E_quiet "welcome"
      = Some lines.
Proof.
  apply (start_truncates_log E_quiet "welcome" st_old_log).
  by destruct (start E_quiet "welcome" st_old_log) as [r s] eqn:H;
    apply (f_equal fst) in H; vm_compute in H; cbn [snd]; subst r.
Defined.

(** C6, as stated, fails: the log of an earlier run is gone after a
    successful [start]. *)
Lemma start_discards_old_log :
  ¬ (∀ E id st st' old,
       start E id st = (returned true, st') →
       logs st !! log_file_of E id = Some old →
       ∃ new, logs st' !! log_file_of E id = Some (old ++ new)).
Proof.
  intros H.
  destruct (H E_quiet "welcome" st_old_log (start E_quiet "welcome" st_old_log).2
              ["old line"]) as [new Hnew].
  - by destruct (start E_quiet "welcome" st_old_log) as [r s] eqn:Hrun;
      apply (f_equal fst) in Hrun; vm_compute in Hrun; cbn [snd]; subst r.
  - by vm_compute.
  - vm_compute in Hnew. discriminate Hnew.
Qed.

(** ** [stop] *)

(** C3, on the escalation path.  When the child does not exit within
    the three seconds after SIGTERM, [stop] sends SIGKILL to the process
    group, releases the handle, sets the status to [stopped] and returns
    [True], but it does not wait for the child again: the handle's
    [returncode] is still [None], and that is what it stores as the exit
    code. *)
Theorem stop_forced_kill_records_no_exit_code E id proc st :
  processes st !! id = Some proc →
  returncode proc = None →
  exits_within E (pid proc) 3 = None →
  (stop E id st).1 = returned true
  ∧ trace (stop E id st).2
    = trace st ++ killpg_events E proc SIGTERM ++ [EvWait (pid proc) 3]
        ++ killpg_events E proc SIGKILL
  ∧ processes (stop E id st).2 !! id = None
  ∧ statuses (stop E id st).2 !! id = Some stopped
  ∧ exit_codes (stop E id st).2 !! id = Some None.
Proof.
  intros Hp Hrc Hwait. rewrite (stop_owned _ _ _ _ Hp). lookups.
  unfold stop_events, stop_returncode. rewrite Hrc, Hwait, !decide_True by done.
  done.
Qed.

Lemma stop_forced_kill_records_no_exit_code_witness :
  (stop E_quiet "welcome" st_welcome_building).1 = returned true
  ∧ trace (stop E_quiet "welcome" st_welcome_building).2
    = trace st_welcome_building ++ killpg_events E_quiet (new_handle 4242) SIGTERM
        ++ [EvWait (pid (new_handle 4242)) 3]
        ++ killpg_events E_quiet (new_handle 4242) SIGKILL
  ∧ processes (stop E_quiet "welcome" st_welcome_building).2 !! "welcome" = None
  ∧ statuses (stop E_quiet "welcome" st_welcome_building).2 !! "welcome" = Some stopped
  ∧ exit_codes (stop E_quiet "welcome" st_welcome_building).2 !! "welcome" = Some None.
Proof.
  apply (stop_forced_kill_records_no_exit_code E_quiet "welcome" (new_handle 4242)
           st_welcome_building); by vm_compute.
Defined.

(** C4.  At an observation point, [stop] on a project whose status is
    [stopped] returns [False] and leaves the whole state as it was. *)
Theorem stop_already_stopped E id st :
  reachable st →
  statuses st !! id = Some stopped →
  stop E id st = (returned false, st).
Proof.
  intros Hreach Hs. apply stop_nothing_to_do; [|by rewrite Hs].
  destruct (reachable_consistent _ Hreach id) as [[Hh _] _].
  destruct (processes st !! id) as [proc|]; [|done].
  destruct Hh as [H|H]; [by eauto| |]; by rewrite Hs in H.
Qed.

Lemma stop_already_stopped_witness :
  stop E_quiet "welcome" st_fresh = (returned false, st_fresh).
Proof.
  apply stop_already_stopped; [apply reach_init | by vm_compute].
Defined.

(** C10.  [stop] on an id that has no handle and whose status is not
    [unmanaged] returns [False], raises nothing and leaves the whole
    state as it was.  At an observation point that is the case for
    every project in error and for every id the registry does not
    know. *)
Theorem stop_without_handle E id st :
  (processes st !! id = None →
   statuses st !! id ≠ Some unmanaged →
   stop E id st = (returned false, st))
  ∧ (reachable st →
     statuses st !! id = Some error ∨ assoc id PROJECTS = None →
     stop E id st = (returned false, st)).
Proof.
  split; [apply stop_nothing_to_do|].
  intros Hreach [Hs|Hk].
  - apply stop_nothing_to_do; [|by rewrite Hs].
    destruct (reachable_consistent _ Hreach id) as [[Hh _] _].
    destruct (processes st !! id) as [proc|]; [|done].
    destruct Hh as [H|H]; [by eauto| |]; by rewrite Hs in H.
  - destruct (reachable_untracked _ _ Hreach Hk) as [Hp Hs].
    apply stop_nothing_to_do; [done|by rewrite Hs].
Qed.

Lemma stop_without_handle_witness :
  stop E_quiet "welcome" st_fresh = (returned false, st_fresh)
  ∧ stop E_quiet "no-such-project" st_taken = (returned false, st_taken)
  ∧ stop E_quiet "welcome" st_welcome_error = (returned false, st_welcome_error).
Proof.
  split; [|split].
  - apply (proj1 (stop_without_handle E_quiet "welcome" st_fresh)); by vm_compute.
  - apply (proj2 (stop_without_handle E_quiet "no-such-project" st_taken)).
    + apply reach_init.
    + right. by vm_compute.
  - apply (proj2 (stop_without_handle E_quiet "welcome" st_welcome_error)).
    + apply reach_start, reach_init.
    + left. by vm_compute.
Defined.

Lemma stop_returns E id st :
  is_Some (assoc id PROJECTS) →
  (∀ prt, lsof E prt ≠ lsof_os_error) →
  ∃ b, (stop E id st).1 = returned b.
Proof.
  intros [info Hk] Hlsof.
  destruct (processes st !! id) as [proc|] eqn:Hp.
  - rewrite (stop_owned _ _ _ _ Hp). by eauto.
  - destruct (decide (statuses st !! id = Some unmanaged)) as [Hs|Hs].
    2: { rewrite stop_nothing_to_do by done. by eauto. }
    rewrite (stop_unmanaged _ _ _ _ Hp Hs Hk).
    specialize (Hlsof (port info)). destruct (lsof E (port info)); by eauto.
Qed.

Lemma stop_loop_returns {A} E (key : A → string) (sel : A → bool) (xs : list A) st :
  (∀ x, x ∈ xs → is_Some (assoc (key x) PROJECTS)) →
  (∀ prt, lsof E prt ≠ lsof_os_error) →
  (for_each xs (λ x, st ← get;
      when (sel x && status_in (statuses st !! key x) [running; building; unmanaged])
        (stop E (key x) ;; mret tt)) st).1 = returned tt.
Proof.
  intros Hreg Hlsof. revert st. induction xs as [|y xs IH]; intros st; [done|].
  cbn [for_each]. unfold mbind at 1, M_bind at 1.
  unfold mbind at 1, M_bind at 1, get at 1.
  assert ((when (sel y && status_in (statuses st !! key y) [running; building; unmanaged])
             (stop E (key y) ;; mret tt) st).1 = returned tt) as Hy.
  { destruct (sel y && _); cbn [when]; [|done]. unfold mbind, M_bind.
    destruct (stop_returns E (key y) st) as [b Hb]; [apply Hreg; by left|done|].
    by destruct (stop E (key y) st) as [[b'|e] st1]. }
  destruct (when _ _ st) as [[[]|e] st1]; cbn [fst] in Hy; [|done].
  apply IH. intros x Hx. apply Hreg. by right.
Qed.

Lemma stop_all_unfold E st :
  stop_all E st
  = for_each PROJECTS.*1 (λ pid, st ← get;
      when ((λ _ : string, true) pid
            && status_in (statuses st !! (λ x : string, x) pid) [running; building; unmanaged])
        (stop E ((λ x : string, x) pid) ;; mret tt)) st.
Proof. done. Qed.

Lemma stop_group_unfold E g st :
  stop_group E g st
  = for_each PROJECTS (λ x, st ← get;
      when ((λ x : string * project, bool_decide (group x.2 = g)) x
            && status_in (statuses st !! (λ x : string * project, x.1) x)
                 [running; building; unmanaged])
        (stop E ((λ x : string * project, x.1) x) ;; mret tt)) st.
Proof. unfold stop_group. apply for_each_ext. by intros [pid info] st'. Qed.

(** ** The invariant *)

(** C9.  A handle is held only for projects in [building] or [running]:
    this holds when [__init__] returns, each of [start], [stop] and
    [update_statuses] keeps it, and so at every observation point a
    project that is stopped, in error or unmanaged holds no handle. *)
Theorem owned_handle_only_while_live :
  (∀ E fs, handle_inv (ProjectManager_init E fs))
  ∧ (∀ E id, preserves handle_inv (start E id))
  ∧ (∀ E id, preserves handle_inv (stop E id))
  ∧ (∀ E, preserves handle_inv (update_statuses E))
  ∧ (∀ st id,
       reachable st →
       statuses st !! id = Some stopped
       ∨ statuses st !! id = Some error
       ∨ statuses st !! id = Some unmanaged →
       processes st !! id = None).
Proof.
  split; [intros; apply consistent_handle_inv, init_consistent|].
  split; [apply start_handle_inv|].
  split; [apply stop_handle_inv|].
  split; [apply update_statuses_handle_inv|].
  intros st id Hreach Hs.
  pose proof (consistent_handle_inv _ (reachable_consistent _ Hreach) id) as Hh.
  destruct (processes st !! id) as [proc|]; [|done].
  destruct Hh as [H|H]; [by eauto| |]; rewrite H in Hs; by destruct Hs as [[=]|[[=]|[=]]].
Qed.

Lemma owned_handle_only_while_live_witness :
  processes st_taken !! "welcome" = None
  ∧ handle_inv (stop E_quiet "welcome" st_welcome_building).2.
Proof.
  destruct owned_handle_only_while_live as (Hinit & Hstart & Hstop & Hupd & Hobs).
  split.
  - apply Hobs; [apply reach_init|]. right. right. by vm_compute.
  - apply Hstop, Hstart, Hinit.
Defined.

(** ** What a loop of [stop] does, project by project *)

Lemma stop_trace_extends E id st :
  ∃ evs, trace (stop E id st).2 = trace st ++ evs.
Proof.
  destruct (processes st !! id) as [proc|] eqn:Hp.
  - rewrite (stop_owned _ _ _ _ Hp). by eexists.
  - destruct (decide (statuses st !! id = Some unmanaged)) as [Hs|Hs].
    2: { rewrite stop_nothing_to_do by done. exists []. by rewrite app_nil_r. }
    destruct (assoc id PROJECTS) as [info|] eqn:Hk.
    2: { rewrite stop_unmanaged_unknown by done. exists []. by rewrite app_nil_r. }
    rewrite (stop_unmanaged _ _ _ _ Hp Hs Hk).
    destruct (lsof E (port info)); by eexists.
Qed.

Lemma emitted_app {A} (m : M A) st evs :
  trace (m st).2 = trace st ++ evs → emitted m st = evs.
Proof. intros H. unfold emitted. rewrite H. apply drop_app_length. Qed.

Lemma stop_emitted E id st :
  trace (stop E id st).2 = trace st ++ emitted (stop E id) st.
Proof.
  destruct (stop_trace_extends E id st) as [evs H].
  by rewrite (emitted_app _ _ _ H).
Qed.

Lemma stop_logs E id st : logs (stop E id st).2 = logs st.
Proof.
  destruct (processes st !! id) as [proc|] eqn:Hp.
  - by rewrite (stop_owned _ _ _ _ Hp).
  - destruct (decide (statuses st !! id = Some unmanaged)) as [Hs|Hs].
    2: { by rewrite stop_nothing_to_do. }
    destruct (assoc id PROJECTS) as [info|] eqn:Hk.
    2: { by rewrite stop_unmanaged_unknown. }
    rewrite (stop_unmanaged _ _ _ _ Hp Hs Hk). by destruct (lsof E (port info)).
Qed.

(** What [stop] does for a project, and what it sends, depends on the
    supervisor's entry for that project only. *)
Lemma stop_local E id s1 s2 :
  entry s1 id = entry s2 id →
  entry (stop E id s1).2 id = entry (stop E id s2).2 id
  ∧ emitted (stop E id) s1 = emitted (stop E id) s2.
Proof.
  unfold entry. intros [= Hp Hs He].
  destruct (processes s2 !! id) as [proc|] eqn:Hp2.
  - rewrite (emitted_app (stop E id) s1 (stop_events E proc))
      by by rewrite (stop_owned _ _ _ _ Hp).
    rewrite (emitted_app (stop E id) s2 (stop_events E proc))
      by by rewrite (stop_owned _ _ _ _ Hp2).
    rewrite (stop_owned _ _ _ _ Hp), (stop_owned _ _ _ _ Hp2).
    split; [|done]. lookups. by rewrite ?decide_True by done.
  - destruct (decide (statuses s2 !! id = Some unmanaged)) as [Hs2|Hs2].
    2: { assert (statuses s1 !! id ≠ Some unmanaged) as Hs1 by congruence.
         rewrite (emitted_app (stop E id) s1 [])
           by (rewrite stop_nothing_to_do by done; by rewrite app_nil_r).
         rewrite (emitted_app (stop E id) s2 [])
           by (rewrite stop_nothing_to_do by done; by rewrite app_nil_r).
         rewrite !stop_nothing_to_do by done. cbn [snd].
         by rewrite Hp, Hs, He, Hp2. }
    assert (statuses s1 !! id = Some unmanaged) as Hs1 by congruence.
    destruct (assoc id PROJECTS) as [info|] eqn:Hk.
    2: { rewrite (emitted_app (stop E id) s1 [])
           by (rewrite stop_unmanaged_unknown by done; by rewrite app_nil_r).
         rewrite (emitted_app (stop E id) s2 [])
           by (rewrite stop_unmanaged_unknown by done; by rewrite app_nil_r).
         rewrite !stop_unmanaged_unknown by done. cbn [snd].
         by rewrite Hp, Hs, He, Hp2. }
    rewrite (emitted_app (stop E id) s1 (kill_port_events E (port info)))
      by (rewrite (stop_unmanaged _ _ _ _ Hp Hs1 Hk); by destruct (lsof E (port info))).
    rewrite (emitted_app (stop E id) s2 (kill_port_events E (port info)))
      by (rewrite (stop_unmanaged _ _ _ _ Hp2 Hs2 Hk); by destruct (lsof E (port info))).
    rewrite (stop_unmanaged _ _ _ _ Hp Hs1 Hk), (stop_unmanaged _ _ _ _ Hp2 Hs2 Hk).
    split; [|done].
    destruct (lsof E (port info)); lookups; rewrite ?decide_True by done;
      by rewrite ?Hp, ?Hs, ?He, ?Hp2.
Qed.

Lemma live_in_elem st ids id :
  id ∈ live_in st ids
  ↔ id ∈ ids ∧ status_in (statuses st !! id) [running; building; unmanaged] = true.
Proof. unfold live_in. by rewrite !list_elem_of_In, filter_In. Qed.

Lemma live_in_local s1 s2 ids :
  (∀ id, id ∈ ids → entry s1 id = entry s2 id) →
  live_in s1 ids = live_in s2 ids.
Proof.
  intros H. apply filter_ext_in. intros id Hid%list_elem_of_In.
  pose proof (f_equal (λ e, e.1.2) (H id Hid)) as Hs.
  unfold entry in Hs. cbn [fst snd] in Hs. by rewrite Hs.
Qed.

Lemma flat_map_ext_elem {A B} (f g : A → list B) (l : list A) :
  (∀ x, x ∈ l → f x = g x) → flat_map f l = flat_map g l.
Proof.
  induction l as [|x l IH]; intros H; [done|]. cbn [flat_map].
  rewrite (H x) by by left. rewrite IH; [done|]. intros y Hy. apply H. by right.
Qed.

(** A loop of guarded [stop]s over distinct ids is [stop] applied to each
    id that was live when the loop began, in order, and nothing else. *)
Lemma stop_ids_applies E (ids : list string) (loop : M unit) st :
  loop st = for_each ids (λ id, s ← get;
              when (status_in (statuses s !! id) [running; building; unmanaged])
                (stop E id ;; mret tt)) st →
  NoDup ids →
  (∀ id, id ∉ live_in st ids → entry (loop st).2 id = entry st id)
  ∧ logs (loop st).2 = logs st
  ∧ ((loop st).1 = returned tt →
     (∀ id, id ∈ live_in st ids → entry (loop st).2 id = entry (stop E id st).2 id)
     ∧ trace (loop st).2
       = trace st ++ flat_map (λ id, emitted (stop E id) st) (live_in st ids)).
Proof.
  intros -> Hnd. clear loop. revert st. induction Hnd as [|y ids Hy Hnd IH]; intros st.
  { split; [done|]. split; [done|]. intros _.
    split; [by intros ? ?%elem_of_nil|]. cbn. by rewrite app_nil_r. }
  assert (live_in st (y :: ids)
          = if status_in (statuses st !! y) [running; building; unmanaged]
            then y :: live_in st ids else live_in st ids) as -> by done.
  remember (for_each (y :: ids) _ st) as r eqn:Hr.
  cbn [for_each] in Hr. unfold mbind at 1, M_bind at 1 in Hr.
  unfold mbind at 1, M_bind at 1, get at 1 in Hr.
  destruct (status_in (statuses st !! y) [running; building; unmanaged]) eqn:Hlive;
    cbn [when] in Hr; [|subst r; apply IH].
  unfold mbind at 1, M_bind at 1 in Hr.
  pose proof (stop_touches_only E y st) as Hfr.
  pose proof (stop_logs E y st) as Hlg.
  pose proof (stop_emitted E y st) as Htr.
  destruct (stop E y st) as [[b|e] st1] eqn:Hstop; cbn [fst snd] in *.
  2: { subst r. split; [|done]. intros id [Hne _]%not_elem_of_cons. by apply Hfr. }
  unfold mret at 1, M_ret at 1 in Hr. cbv beta iota in Hr. subst r.
  destruct (IH st1) as (Hout & Hlogs & Hin).
  assert (∀ id, id ∈ ids → entry st1 id = entry st id) as Hsame.
  { intros id Hid. apply Hfr. by intros ->. }
  rewrite (live_in_local st1 st ids Hsame) in *.
  assert (y ∉ live_in st ids) as Hy' by (by intros [? _]%live_in_elem).
  split; [|split].
  - intros id [Hne Hid]%not_elem_of_cons. rewrite Hout by done. by apply Hfr.
  - by rewrite Hlogs.
  - intros Hret. destruct (Hin Hret) as [Hent Htrace]. split.
    + intros id [->|Hid]%elem_of_cons; [rewrite Hstop; by apply Hout|].
      rewrite Hent by done. apply stop_local, Hsame. by apply live_in_elem in Hid as [? _].
    + rewrite Htrace, Htr. cbn [flat_map]. rewrite <- app_assoc. do 2 f_equal.
      apply flat_map_ext_elem. intros id Hid.
      apply stop_local, Hsame. by apply live_in_elem in Hid as [? _].
Qed.

Lemma for_each_cons_run {A} (x : A) (xs : list A) (body : A → M unit) st :
  for_each (x :: xs) body st
  = match body x st with
    | (returned _, st1) => for_each xs body st1
    | (raised e, st1) => (raised e, st1)
    end.
Proof. cbn [for_each]. unfold mbind, M_bind. by destruct (body x st) as [[[]|e] st1]. Qed.

Lemma stop_loop_ids {A} E (key : A → string) (sel : A → bool) (xs : list A) st :
  for_each xs (λ x, st ← get;
      when (sel x && status_in (statuses st !! key x) [running; building; unmanaged])
        (stop E (key x) ;; mret tt)) st
  = for_each (key <$> List.filter sel xs) (λ id, s ← get;
      when (status_in (statuses s !! id) [running; building; unmanaged])
        (stop E id ;; mret tt)) st.
Proof.
  revert st. induction xs as [|x xs IH]; intros st; [done|].
  rewrite for_each_cons_run. cbn [List.filter]. cbv beta.
  destruct (sel x) eqn:Hsel.
  - rewrite fmap_cons, for_each_cons_run. cbv beta. cbn [andb].
    destruct ((s ← get; when _ _) st) as [[[]|e] st1]; [apply IH|done].
  - assert ((s ← get; when (false && status_in (statuses s !! key x)
                                       [running; building; unmanaged])
                        (stop E (key x) ;; mret tt)) st = (returned tt, st)) as -> by done.
    apply IH.
Qed.

Lemma NoDup_fst_filter {A} (p : string * A → bool) (l : list (string * A)) :
  NoDup l.*1 → NoDup (List.filter p l).*1.
Proof.
  induction l as [|x l IH]; [done|]. rewrite fmap_cons.
  intros [Hx Hnd]%NoDup_cons. cbn [List.filter].
  destruct (p x); [|by apply IH]. rewrite fmap_cons. apply NoDup_cons.
  split; [|by apply IH]. intros [z [Hz Hin]]%list_elem_of_fmap.
  apply Hx, list_elem_of_fmap. exists z. split; [done|].
  apply list_elem_of_In. apply list_elem_of_In, filter_In in Hin. tauto.
Qed.

(** What a loop that applied [stop] has done for a project that held a
    handle. *)
Lemma stop_applied_owned E (loop : M unit) (ids : list string) st id proc :
  entry (loop st).2 id = entry (stop E id st).2 id →
  trace (loop st).2 = trace st ++ flat_map (λ id, emitted (stop E id) st) ids →
  id ∈ ids →
  processes st !! id = Some proc →
  entry (loop st).2 id = (None, Some stopped, Some (stop_returncode E proc))
  ∧ (∀ ev, ev ∈ stop_events E proc → ev ∈ trace (loop st).2).
Proof.
  intros Hent Htrace Hid Hp. split.
  - rewrite Hent, (stop_owned _ _ _ _ Hp). lookups. by rewrite !decide_True by done.
  - intros ev Hev. rewrite Htrace. apply elem_of_app. right.
    apply list_elem_of_In, in_flat_map. exists id. split; [by apply list_elem_of_In|].
    apply list_elem_of_In.
    rewrite (emitted_app (stop E id) st (stop_events E proc)); [done|].
    by rewrite (stop_owned _ _ _ _ Hp).
Qed.
(** ** Group and bulk operations *)

(** C5, as the code has it.  [start_all] and [start_group] only start a
    thread for the staggered loop and return: no status, handle, exit
    code or log changes and nothing is sent or waited for.  [stop_all]
    and [stop_group] start no thread: they call [stop] themselves, so
    at an observation point, when the call returns, no project of the
    registry (of the group) is running, building or unmanaged any
    more; and they do return unless [lsof] fails to run.

    What the two loops do is [stop], applied in the caller to each
    member whose status is running, building or unmanaged at the call,
    in registry order, and nothing else.  A project that is not among
    these keeps its handle, status and exit code, and no log is
    written.  When the call returns, each of these has the handle,
    status and exit code that [stop] leaves it with, and the trace has
    grown by what each [stop] sent and waited for, in that order; in
    particular a member that held a handle has lost it, is stopped, has
    the return code of the child as its exit code, and every signal and
    wait of [stop] for that child is in the trace. *)
Theorem bulk_operations E g st :
  start_all st = (returned tt, with_threads (λ ts, ts ++ [staggered_all]) st)
  ∧ start_group g st = (returned tt, with_threads (λ ts, ts ++ [staggered_group g]) st)
  ∧ threads (stop_all E st).2 = threads st
  ∧ threads (stop_group E g st).2 = threads st
  ∧ ((∀ prt, lsof E prt ≠ lsof_os_error) →
     (stop_all E st).1 = returned tt ∧ (stop_group E g st).1 = returned tt)
  ∧ (reachable st →
     (stop_all E st).1 = returned tt →
     ∀ pid info, (pid, info) ∈ PROJECTS →
       status_in (statuses (stop_all E st).2 !! pid) [running; building; unmanaged] = false)
  ∧ (reachable st →
     (stop_group E g st).1 = returned tt →
     ∀ pid info, (pid, info) ∈ PROJECTS → group info = g →
       status_in (statuses (stop_group E g st).2 !! pid) [running; building; unmanaged] = false)
  ∧ (∀ id, id ∉ live_in st PROJECTS.*1 → entry (stop_all E st).2 id = entry st id)
  ∧ (∀ id, id ∉ live_in st (group_ids g) → entry (stop_group E g st).2 id = entry st id)
  ∧ logs (stop_all E st).2 = logs st
  ∧ logs (stop_group E g st).2 = logs st
  ∧ ((stop_all E st).1 = returned tt →
     (∀ id, id ∈ live_in st PROJECTS.*1 →
        entry (stop_all E st).2 id = entry (stop E id st).2 id)
     ∧ trace (stop_all E st).2
       = trace st ++ flat_map (λ id, emitted (stop E id) st) (live_in st PROJECTS.*1)
     ∧ (∀ id proc,
          id ∈ live_in st PROJECTS.*1 → processes st !! id = Some proc →
          entry (stop_all E st).2 id = (None, Some stopped, Some (stop_returncode E proc))
          ∧ (∀ ev, ev ∈ stop_events E proc → ev ∈ trace (stop_all E st).2)))
  ∧ ((stop_group E g st).1 = returned tt →
     (∀ id, id ∈ live_in st (group_ids g) →
        entry (stop_group E g st).2 id = entry (stop E id st).2 id)
     ∧ trace (stop_group E g st).2
       = trace st ++ flat_map (λ id, emitted (stop E id) st) (live_in st (group_ids g))
     ∧ (∀ id proc,
          id ∈ live_in st (group_ids g) → processes st !! id = Some proc →
          entry (stop_group E g st).2 id = (None, Some stopped, Some (stop_returncode E proc))
          ∧ (∀ ev, ev ∈ stop_events E proc → ev ∈ trace (stop_group E g st).2))).
Proof.
  split; [done|]. split; [done|].
  split; [rewrite stop_all_unfold; apply stop_loop_threads|].
  split; [rewrite stop_group_unfold; apply stop_loop_threads|].
  split; [|split; [|split]].
  - intros Hlsof. split.
    + rewrite stop_all_unfold. apply stop_loop_returns; [|done].
      intros pid [[p i] [-> Hin]]%list_elem_of_fmap. by eapply registered_in.
    + rewrite stop_group_unfold. apply stop_loop_returns; [|done].
      intros [p i] Hin. by eapply registered_in.
  - intros Hreach Hret pid info Hin. rewrite stop_all_unfold in *.
    apply (stop_loop_idle E (λ x : string, x) (λ _, true) PROJECTS.*1 st);
      [by apply reachable_consistent|done| |done].
    apply list_elem_of_fmap. by exists (pid, info).
  - intros Hreach Hret pid info Hin Hg. rewrite stop_group_unfold in *.
    apply (stop_loop_idle E (λ x : string * project, x.1)
             (λ x, bool_decide (group x.2 = g)) PROJECTS st
             (reachable_consistent _ Hreach) Hret (pid, info));
      [done|by apply bool_decide_eq_true_2].
  - destruct (stop_ids_applies E PROJECTS.*1 (stop_all E) st eq_refl PROJECTS_NoDup)
      as (Hout & Hlogs & Hin).
    destruct (stop_ids_applies E (group_ids g) (stop_group E g) st)
      as (Hgout & Hglogs & Hgin).
    { rewrite stop_group_unfold. apply stop_loop_ids. }
    { apply NoDup_fst_filter, PROJECTS_NoDup. }
    split; [done|]. split; [done|]. split; [done|]. split; [done|]. split.
    + intros Hret. destruct (Hin Hret) as [Hent Htrace].
      split; [done|]. split; [done|]. intros id proc Hid Hp.
      by apply (stop_applied_owned E (stop_all E) (live_in st PROJECTS.*1)); [apply Hent|..].
    + intros Hret. destruct (Hgin Hret) as [Hent Htrace].
      split; [done|]. split; [done|]. intros id proc Hid Hp.
      by apply (stop_applied_owned E (stop_group E g) (live_in st (group_ids g)));
        [apply Hent|..].
Qed.

Lemma bulk_operations_witness :
  start_all st_taken = (returned tt, with_threads (λ ts, ts ++ [staggered_all]) st_taken)
  ∧ (stop_all E_quiet st_taken).1 = returned tt
  ∧ status_in (statuses (stop_all E_quiet st_taken).2 !! "welcome")
      [running; building; unmanaged] = false
  ∧ status_in (statuses (stop_group E_quiet "MAIN" st_taken).2 !! "welcome")
      [running; building; unmanaged] = false
  ∧ entry (stop_all E_graceful st_welcome_building).2 "welcome"
    = (None, Some stopped, Some (Some 0))
  ∧ EvKillpg 4242 SIGTERM ∈ trace (stop_all E_graceful st_welcome_building).2
  ∧ entry (stop_group E_graceful "MAIN" st_welcome_building).2 "welcome"
    = (None, Some stopped, Some (Some 0))
  ∧ entry (stop_group E_graceful "TOOLS" st_welcome_building).2 "welcome"
    = entry st_welcome_building "welcome".
Proof.
  destruct (bulk_operations E_quiet "MAIN" st_taken)
    as (Hall & _ & _ & _ & Hret & Hidle & Hgidle & _).
  destruct Hret as [Hr Hgr]; [intros prt; by vm_compute|].
  split; [exact Hall|]. split; [exact Hr|]. split; [|split].
  - apply (Hidle (reach_init _ _) Hr "welcome" (mk "Welcome" 8080 "WELCOME" "MAIN")).
    apply list_elem_of_here.
  - apply (Hgidle (reach_init _ _) Hgr "welcome" (mk "Welcome" 8080 "WELCOME" "MAIN"));
      [apply list_elem_of_here | reflexivity].
  - destruct (bulk_operations E_graceful "MAIN" st_welcome_building)
      as (_ & _ & _ & _ & Hret' & _ & _ & _ & _ & _ & _ & Hstop & Hgstop).
    destruct Hret' as [Hr' Hgr']; [intros prt; by vm_compute|].
    destruct (Hstop Hr') as (_ & _ & Howned).
    destruct (Hgstop Hgr') as (_ & _ & Hgowned).
    assert (live_in st_welcome_building PROJECTS.*1 = ["welcome"]) as Hlive
      by by vm_compute.
    assert (live_in st_welcome_building (group_ids "MAIN") = ["welcome"]) as Hglive
      by by vm_compute.
    assert (processes st_welcome_building !! "welcome" = Some (new_handle 4242)) as Hp
      by by vm_compute.
    destruct (Howned "welcome" (new_handle 4242)) as [Hent Hsig];
      [rewrite Hlive; apply list_elem_of_here|exact Hp|].
    destruct (Hgowned "welcome" (new_handle 4242)) as [Hgent _];
      [rewrite Hglive; apply list_elem_of_here|exact Hp|].
    split; [exact Hent|]. split; [apply Hsig; apply list_elem_of_here|].
    split; [exact Hgent|].
    destruct (bulk_operations E_graceful "TOOLS" st_welcome_building)
      as (_ & _ & _ & _ & _ & _ & _ & _ & Hgout & _).
    apply Hgout.
    assert (live_in st_welcome_building (group_ids "TOOLS") = []) as -> by by vm_compute.
    apply not_elem_of_nil.
Defined.

(** C5, as stated, fails for [stop_all] (and [stop_group]): the call
    itself stops the projects, here the unmanaged "welcome". *)
Lemma stop_all_runs_in_the_caller :
  ¬ (∀ E st id, entry (stop_all E st).2 id = entry st id).
Proof.
  intros H. specialize (H E_quiet st_taken "welcome").
  apply (f_equal (λ e, e.1.2)) in H. vm_compute in H. discriminate H.
Qed.

(** * Further properties of the supervisor *)

(** ** Shared steps *)

Lemma assoc_in_NoDup {A} (l : list (string * A)) k v :
  NoDup l.*1 → (k, v) ∈ l → assoc k l = Some v.
Proof.
  induction l as [|[k' v'] l IH]; [by intros _ ?%elem_of_nil|].
  rewrite fmap_cons. intros [Hk Hnd]%NoDup_cons [[= -> ->]|Hin]%elem_of_cons; cbn.
  - by rewrite decide_True.
  - rewrite decide_False; [by apply IH|].
    intros ->. apply Hk, list_elem_of_fmap. by exists (k, v).
Qed.

Lemma PROJECTS_assoc pid info : (pid, info) ∈ PROJECTS → assoc pid PROJECTS = Some info.
Proof. apply assoc_in_NoDup, PROJECTS_NoDup. Qed.


(** What one pass of [update_statuses] does to a project of the
    registry is what [update_status] alone does to it. *)
Lemma update_statuses_entry E st pid info :
  consistent st →
  (pid, info) ∈ PROJECTS →
  (update_statuses E st).1 = returned tt
  ∧ entry (update_statuses E st).2 pid = entry (update_status E pid info st).2 pid.
Proof.
  intros Hc Hin.
  destruct (update_loop E PROJECTS st Hc PROJECTS_NoDup) as [Hret Hentry].
  { intros p i Hp. by eapply registered_in. }
  split; [done|]. by apply Hentry.
Qed.

Lemma reachable_statuses_registered st id s :
  reachable st → statuses st !! id = Some s → is_Some (assoc id PROJECTS).
Proof.
  intros Hreach Hs. destruct (assoc id PROJECTS) eqn:Hk; [by eauto|].
  destruct (reachable_untracked _ _ Hreach Hk) as [_ Hnone]. congruence.
Qed.

(** ** [__init__] *)



(** ** [shutdown] *)

Lemma shutdown_trace_extends E keys st :
  ∃ evs, trace (shutdown E keys st).2 = trace st ++ evs.
Proof.
  revert st. induction keys as [|k keys IH]; intros st.
  { exists []. by rewrite app_nil_r. }
  unfold shutdown. cbn [for_each]. unfold mbind, M_bind.
  destruct (stop_trace_extends E k st) as [evs1 H1].
  destruct (stop E k st) as [[b|e] st1]; cbn [snd] in *; [|by eauto].
  unfold mret, M_ret. destruct (IH st1) as [evs2 H2].
  unfold shutdown, mbind, M_bind, mret, M_ret in H2.
  exists (evs1 ++ evs2). by rewrite H2, H1, app_assoc.
Qed.

Lemma shutdown_loop E keys st :
  (∀ id, id ∈ keys →
     is_Some (processes st !! id)
     ∨ (processes st !! id = None ∧ statuses st !! id = Some stopped)) →
  (shutdown E keys st).1 = returned tt
  ∧ (∀ id, id ∈ keys →
       processes (shutdown E keys st).2 !! id = None
       ∧ statuses (shutdown E keys st).2 !! id = Some stopped)
  ∧ (∀ id, id ∉ keys → entry (shutdown E keys st).2 id = entry st id)
  ∧ (∀ id proc pgid,
       id ∈ keys → processes st !! id = Some proc → getpgid E (pid proc) = Some pgid →
       EvKillpg pgid SIGTERM ∈ trace (shutdown E keys st).2).
Proof.
  revert st. induction keys as [|k keys IH]; intros st Hkeys.
  { split; [done|]. split; [by intros ? ?%elem_of_nil|]. split; [done|].
    by intros ??? ?%elem_of_nil. }
  assert (∃ st1, stop E k st = (returned (bool_decide (is_Some (processes st !! k))), st1)
                 ∧ processes st1 !! k = None ∧ statuses st1 !! k = Some stopped
                 ∧ (∀ proc pgid, processes st !! k = Some proc →
                      getpgid E (pid proc) = Some pgid →
                      EvKillpg pgid SIGTERM ∈ trace st1)) as (st1 & Hrun & Hp1 & Hs1 & Hsig).
  { destruct (Hkeys k) as [[proc Hp]|[Hp Hs]]; [by left| |].
    - rewrite (stop_owned _ _ _ _ Hp). eexists. split; [by rewrite Hp|]. lookups.
      rewrite !decide_True by done. split; [done|]. split; [done|].
      intros proc' pgid Heq Hpg. rewrite Hp in Heq. injection Heq as <-. unfold stop_events, killpg_events. rewrite Hpg.
      apply elem_of_app. right. apply elem_of_app. left. by left.
    - rewrite stop_nothing_to_do; [|done|by rewrite Hs].
      eexists. split; [by rewrite Hp|]. split; [done|]. split; [done|].
      intros proc pgid Hproc. congruence. }
  pose proof (stop_touches_only E k st) as Hfr. rewrite Hrun in Hfr. cbn [snd] in Hfr.
  assert (∀ id, id ∈ keys →
     is_Some (processes st1 !! id)
     ∨ (processes st1 !! id = None ∧ statuses st1 !! id = Some stopped)) as Hkeys1.
  { intros id Hid. destruct (decide (id = k)) as [->|Hne]; [by right|].
    specialize (Hfr id Hne).
    pose proof (f_equal (λ e, e.1.1) Hfr) as Hp.
    pose proof (f_equal (λ e, e.1.2) Hfr) as Hs.
    unfold entry in Hp, Hs. cbn [fst snd] in Hp, Hs. rewrite Hp, Hs.
    apply Hkeys. by right. }
  destruct (IH st1 Hkeys1) as (Hret & Hin & Hout & Hkill).
  assert (shutdown E (k :: keys) st = shutdown E keys st1) as ->.
  { unfold shutdown. cbn [for_each]. unfold mbind, M_bind.
    by rewrite Hrun. }
  split; [done|]. split; [|split].
  - intros id [->|Hid]%elem_of_cons; [|by apply Hin].
    destruct (decide (k ∈ keys)) as [Hk|Hk]; [by apply Hin|].
    pose proof (Hout k Hk) as Heq.
    pose proof (f_equal (λ e, e.1.1) Heq) as Hp.
    pose proof (f_equal (λ e, e.1.2) Heq) as Hs.
    unfold entry in Hp, Hs. cbn [fst snd] in Hp, Hs. by rewrite Hp, Hs.
  - intros id [Hne Hid]%not_elem_of_cons. rewrite (Hout id Hid). by apply Hfr.
  - intros id proc pgid Hid Hproc Hpg.
    destruct (decide (id = k)) as [->|Hne].
    + destruct (shutdown_trace_extends E keys st1) as [evs ->].
      apply elem_of_app. left. by eapply Hsig.
    + apply elem_of_cons in Hid as [->|Hid]; [done|].
      apply (Hkill id proc pgid Hid); [|done].
      specialize (Hfr id Hne). pose proof (f_equal (λ e, e.1.1) Hfr) as Hp.
      unfold entry in Hp. cbn [fst snd] in Hp. by rewrite Hp.
Qed.

(** X2.  [shutdown], run over the ids that hold a handle, returns
    without raising; afterwards no handle is left at all, every project
    that held one is [stopped], every other project is as it was, and
    every child whose process group could be looked up has been sent
    SIGTERM. *)
Theorem shutdown_releases_every_handle E keys st :
  (∀ id, id ∈ keys ↔ is_Some (processes st !! id)) →
  (shutdown E keys st).1 = returned tt
  ∧ processes (shutdown E keys st).2 = ∅
  ∧ (∀ id, id ∈ keys → statuses (shutdown E keys st).2 !! id = Some stopped)
  ∧ (∀ id, id ∉ keys → entry (shutdown E keys st).2 id = entry st id)
  ∧ (∀ id proc pgid,
       processes st !! id = Some proc → getpgid E (pid proc) = Some pgid →
       EvKillpg pgid SIGTERM ∈ trace (shutdown E keys st).2).
Proof.
  intros Hkeys.
  destruct (shutdown_loop E keys st) as (Hret & Hin & Hout & Hkill).
  { intros id Hid. left. by apply Hkeys. }
  split; [done|]. split; [|split; [|split]].
  - apply map_eq. intros id. rewrite lookup_empty.
    destruct (decide (id ∈ keys)) as [Hid|Hid]; [by apply Hin|].
    pose proof (f_equal (λ e, e.1.1) (Hout id Hid)) as Hp.
    unfold entry in Hp. cbn [fst snd] in Hp. rewrite Hp.
    destruct (processes st !! id) eqn:Hproc; [|done].
    exfalso. apply Hid, Hkeys. by eauto.
  - intros id Hid. by apply Hin.
  - done.
  - intros id proc pgid Hproc Hpg. apply (Hkill id proc pgid); [|done..].
    apply Hkeys. by eauto.
Qed.

Lemma shutdown_releases_every_handle_witness :
  (shutdown E_graceful ["welcome"] st_welcome_building).1 = returned tt
  ∧ processes (shutdown E_graceful ["welcome"] st_welcome_building).2 = ∅
  ∧ (∀ id, id ∈ ["welcome"] →
       statuses (shutdown E_graceful ["welcome"] st_welcome_building).2 !! id = Some stopped)
  ∧ (∀ id, id ∉ ["welcome"] →
       entry (shutdown E_graceful ["welcome"] st_welcome_building).2 id
       = entry st_welcome_building id)
  ∧ (∀ id proc pgid,
       processes st_welcome_building !! id = Some proc →
       getpgid E_graceful (pid proc) = Some pgid →
       EvKillpg pgid SIGTERM ∈ trace (shutdown E_graceful ["welcome"] st_welcome_building).2).
Proof.
  apply (shutdown_releases_every_handle E_graceful ["welcome"] st_welcome_building).
  intros id. split.
  - intros ->%list_elem_of_singleton. vm_compute. by eexists.
  - intros Hsome. apply list_elem_of_singleton.
    destruct (decide (id = "welcome")) as [|Hne]; [done|].
    pose proof (start_touches_only E_quiet "welcome" st_fresh id Hne) as Hfr.
    pose proof (f_equal (λ e, e.1.1) Hfr) as Hp. unfold entry in Hp. cbn [fst snd] in Hp.
    unfold st_welcome_building in Hsome. rewrite Hp in Hsome.
    assert (processes st_fresh = ∅) as Hempty by by vm_compute.
    rewrite Hempty, lookup_empty in Hsome. by destruct Hsome.
Defined.

(** ** [stop] on an unmanaged project *)

Lemma kill_port_events_gentle E prt ev :
  ev ∈ kill_port_events E prt → ev = EvLsof prt ∨ ∃ p, ev = EvKill p SIGTERM.
Proof.
  unfold kill_port_events. intros [->|Hin]%elem_of_cons; [by left|]. right.
  destruct (lsof E prt) as [lines| | |]; try by apply elem_of_nil in Hin.
  apply list_elem_of_omap in Hin as (l & _ & Hl).
  destruct l; try done. injection Hl as <-. by eauto.
Qed.

(** X3.  At an observation point, [stop] on an unmanaged project runs
    [lsof] on the project's port and sends SIGTERM, and nothing else,
    to each pid it lists: no SIGKILL, no wait, no handle, no exit code.
    It then sets the status to [stopped] and returns [True], also when
    [lsof] is missing, timed out or listed nothing; only when running
    [lsof] raises another OSError does [stop] raise, with the status
    still [unmanaged]. *)
Theorem stop_unmanaged_is_best_effort E id st :
  reachable st →
  statuses st !! id = Some unmanaged →
  ∃ info,
    assoc id PROJECTS = Some info
    ∧ processes (stop E id st).2 = processes st
    ∧ exit_codes (stop E id st).2 = exit_codes st
    ∧ trace (stop E id st).2 = trace st ++ kill_port_events E (port info)
    ∧ (∀ ev, ev ∈ kill_port_events E (port info) →
         ev = EvLsof (port info) ∨ ∃ p, ev = EvKill p SIGTERM)
    ∧ match lsof E (port info) with
      | lsof_os_error =>
          (stop E id st).1 = raised OSError
          ∧ statuses (stop E id st).2 !! id = Some unmanaged
      | _ =>
          (stop E id st).1 = returned true
          ∧ statuses (stop E id st).2 !! id = Some stopped
      end.
Proof.
  intros Hreach Hs.
  destruct (reachable_statuses_registered _ _ _ Hreach Hs) as [info Hk].
  assert (processes st !! id = None) as Hp.
  { destruct (reachable_consistent _ Hreach id) as [[Hh _] _].
    destruct (processes st !! id) as [proc|]; [|done].
    destruct Hh as [H|H]; [by eauto| |]; by rewrite Hs in H. }
  exists info. split; [done|]. rewrite (stop_unmanaged _ _ _ _ Hp Hs Hk).
  destruct (lsof E (port info)); lookups; rewrite ?decide_True by done;
    repeat split; try done; apply kill_port_events_gentle.
Qed.

Lemma stop_unmanaged_is_best_effort_witness :
  ∃ info,
    assoc "welcome" PROJECTS = Some info
    ∧ processes (stop E_busy "welcome" st_taken).2 = processes st_taken
    ∧ exit_codes (stop E_busy "welcome" st_taken).2 = exit_codes st_taken
    ∧ trace (stop E_busy "welcome" st_taken).2
      = trace st_taken ++ kill_port_events E_busy (port info)
    ∧ (∀ ev, ev ∈ kill_port_events E_busy (port info) →
         ev = EvLsof (port info) ∨ ∃ p, ev = EvKill p SIGTERM)
    ∧ match lsof E_busy (port info) with
      | lsof_os_error =>
          (stop E_busy "welcome" st_taken).1 = raised OSError
          ∧ statuses (stop E_busy "welcome" st_taken).2 !! "welcome" = Some unmanaged
      | _ =>
          (stop E_busy "welcome" st_taken).1 = returned true
          ∧ statuses (stop E_busy "welcome" st_taken).2 !! "welcome" = Some stopped
      end.
Proof.
  apply (stop_unmanaged_is_best_effort E_busy "welcome" st_taken).
  - apply reach_init.
  - by vm_compute.
Defined.

(** X4.  The [stopped] that [stop] writes for an unmanaged project is
    only a guess: the next pass of [update_statuses] puts the project
    back to [unmanaged] when its port still accepts connections, and
    keeps [stopped] when it does not. *)
Theorem optimistic_stop_is_reconciled E E' st pid info :
  reachable st →
  (pid, info) ∈ PROJECTS →
  statuses st !! pid = Some unmanaged →
  lsof E (port info) ≠ lsof_os_error →
  (stop E pid st).1 = returned true
  ∧ statuses (stop E pid st).2 !! pid = Some stopped
  ∧ statuses (update_statuses E' (stop E pid st).2).2 !! pid
    = Some (if _port_open E' (port info) then unmanaged else stopped).
Proof.
  intros Hreach Hin Hs Hlsof.
  pose proof (PROJECTS_assoc _ _ Hin) as Hk.
  assert (processes st !! pid = None) as Hp.
  { destruct (reachable_consistent _ Hreach pid) as [[Hh _] _].
    destruct (processes st !! pid) as [proc|]; [|done].
    destruct Hh as [H|H]; [by eauto| |]; by rewrite Hs in H. }
  pose proof (reachable_consistent _ (reach_stop E pid st Hreach)) as Hc1.
  destruct (update_statuses_entry E' _ pid info Hc1 Hin) as [_ Hentry].
  pose proof (f_equal (λ e, e.1.2) Hentry) as Hs2.
  unfold entry in Hs2. cbn [fst snd] in Hs2. rewrite Hs2. clear Hentry Hs2 Hc1.
  rewrite (stop_unmanaged _ _ _ _ Hp Hs Hk).
  assert (∀ s1, processes s1 !! pid = None → statuses s1 !! pid = Some stopped →
            statuses (update_status E' pid info s1).2 !! pid
            = Some (if _port_open E' (port info) then unmanaged else stopped)) as Hstep.
  { intros s1 Hp1 Hs1. unfold update_status. unfold_M. rewrite Hp1, Hs1.
    destruct (decide _) as [|_]; [done|].
    rewrite bool_decide_eq_true_2 by done. cbn [andb].
    destruct (_port_open E' (port info)); lookups; [by rewrite decide_True|done]. }
  destruct (lsof E (port info)); try done; lookups; rewrite decide_True by done;
    (split; [done|]); (split; [done|]); apply Hstep; lookups;
    rewrite ?decide_True by done; done.
Qed.

Lemma optimistic_stop_is_reconciled_witness :
  (stop E_busy "welcome" st_taken).1 = returned true
  ∧ statuses (stop E_busy "welcome" st_taken).2 !! "welcome" = Some stopped
  ∧ statuses (update_statuses E_busy (stop E_busy "welcome" st_taken).2).2 !! "welcome"
    = Some (if _port_open E_busy (port (mk "Welcome" 8080 "WELCOME" "MAIN"))
            then unmanaged else stopped).
Proof.
  apply (optimistic_stop_is_reconciled E_busy E_busy st_taken "welcome"
           (mk "Welcome" 8080 "WELCOME" "MAIN")).
  - apply reach_init.
  - apply list_elem_of_here.
  - by vm_compute.
  - by vm_compute.
Defined.

(** ** [start] and [stop] together *)

(** X5.  At an observation point [start] never replaces a handle: for
    a project whose handle is held it returns [False] and changes
    nothing, so a project has at most one child of the supervisor. *)
Theorem start_never_replaces_a_handle E id st :
  reachable st →
  is_Some (processes st !! id) →
  start E id st = (returned false, st).
Proof.
  intros Hreach Hsome. apply start_busy, status_in_busy.
  destruct (reachable_consistent _ Hreach id) as [[Hh _] _].
  destruct (Hh Hsome); eauto.
Qed.

Lemma start_never_replaces_a_handle_witness :
  start E_graceful "welcome" st_welcome_building = (returned false, st_welcome_building).
Proof.
  apply start_never_replaces_a_handle.
  - apply reach_start, reach_init.
  - vm_compute. by eexists.
Defined.

(** X6.  At an observation point, a [stop] that follows a successful
    [start] of the same project returns [True] and puts [processes]
    back exactly as it was before the [start]; the project is
    [stopped], its exit code is the status the child exited with within
    the three seconds ([None] if it did not), and the supervisor's
    entries for the other projects are as before the [start]. *)
Theorem start_then_stop E E' id st st' :
  reachable st →
  start E id st = (returned true, st') →
  ∃ info child,
    assoc id PROJECTS = Some info
    ∧ popen E (project_dir E info) (port info) = spawned child
    ∧ (stop E' id st').1 = returned true
    ∧ processes (stop E' id st').2 = processes st
    ∧ statuses (stop E' id st').2 !! id = Some stopped
    ∧ exit_codes (stop E' id st').2 !! id = Some (exits_within E' child 3)
    ∧ ∀ id', id' ≠ id → entry (stop E' id st').2 id' = entry st id'.
Proof.
  intros Hreach Hrun.
  destruct (start_paths E id st) as [| | | | |info child Hk Hs Hm Hp];
    try discriminate Hrun.
  injection Hrun as <-. exists info, child. split; [done|]. split; [done|].
  assert (processes st !! id = None) as Hnone.
  { apply status_in_idle in Hs as (Hr & Hb & _).
    destruct (reachable_consistent _ Hreach id) as [[Hh _] _].
    destruct (processes st !! id) as [proc|]; [|done].
    destruct Hh as [H|H]; by eauto. }
  erewrite stop_owned; [|lookups; by rewrite decide_True].
  lookups. rewrite !decide_True by done.
  split; [done|]. split; [by apply delete_insert_id|]. split; [done|]. split; [done|].
  intros id' Hne. rewrite lookup_delete_ne, !lookup_insert_ne by done. done.
Qed.

Lemma start_then_stop_witness :
  ∃ info child,
    assoc "welcome" PROJECTS = Some info
    ∧ popen E_quiet (project_dir E_quiet info) (port info) = spawned child
    ∧ (stop E_graceful "welcome" st_welcome_building).1 = returned true
    ∧ processes (stop E_graceful "welcome" st_welcome_building).2 = processes st_fresh
    ∧ statuses (stop E_graceful "welcome" st_welcome_building).2 !! "welcome" = Some stopped
    ∧ exit_codes (stop E_graceful "welcome" st_welcome_building).2 !! "welcome"
      = Some (exits_within E_graceful child 3)
    ∧ ∀ id', id' ≠ "welcome" →
        entry (stop E_graceful "welcome" st_welcome_building).2 id' = entry st_fresh id'.
Proof.
  apply (start_then_stop E_quiet E_graceful "welcome" st_fresh st_welcome_building).
  - apply reach_init.
  - unfold st_welcome_building. by destruct (start E_quiet "welcome" st_fresh) eqn:H;
      vm_compute in H; injection H as <- <-.
Defined.

(** X7.  Retrying after a configuration error.  For a stopped (or
    failed) project of the registry at an observation point: a [start]
    that finds no marker returns [False] and leaves the project in
    [error]; a following [start] that finds a marker and spawns a child
    returns [True] and leaves it in [building] with that child's handle;
    and a following pass of [update_statuses] that sees the child alive
    and the port live leaves it in [running], still holding the handle. *)
Theorem retry_after_error E1 E2 E3 st id info child :
  reachable st →
  (id, info) ∈ PROJECTS →
  statuses st !! id = Some stopped ∨ statuses st !! id = Some error →
  has_marker E1 info = false →
  has_marker E2 info = true →
  popen E2 (project_dir E2 info) (port info) = spawned child →
  exited E3 child = None →
  _port_open E3 (port info) = true →
  (start E1 id st).1 = returned false
  ∧ statuses (start E1 id st).2 !! id = Some error
  ∧ (start E2 id (start E1 id st).2).1 = returned true
  ∧ statuses (start E2 id (start E1 id st).2).2 !! id = Some building
  ∧ statuses (update_statuses E3 (start E2 id (start E1 id st).2).2).2 !! id
    = Some running
  ∧ processes (update_statuses E3 (start E2 id (start E1 id st).2).2).2 !! id
    = Some (new_handle child).
Proof.
  intros Hreach Hin Hs Hm1 Hm2 Hp Hex Hport.
  pose proof (PROJECTS_assoc _ _ Hin) as Hk.
  pose proof (reachable_consistent _
                (reach_start E2 id _ (reach_start E1 id st Hreach))) as Hc2.
  destruct (update_statuses_entry E3 _ id info Hc2 Hin) as [_ Hentry].
  pose proof (f_equal (λ e, e.1.1) Hentry) as Hp3.
  pose proof (f_equal (λ e, e.1.2) Hentry) as Hs3.
  unfold entry in Hp3, Hs3. cbn [fst snd] in Hp3, Hs3. rewrite Hp3, Hs3.
  clear Hentry Hp3 Hs3 Hc2.
  rewrite (start_no_marker E1 id info st Hk (status_in_ready _ Hs) Hm1).
  cbn [fst snd].
  erewrite (start_spawned E2 id info _ child Hk); [|lookups; by rewrite decide_True|done..].
  lookups. rewrite !decide_True by done.
  split; [done|]. split; [done|]. split; [done|]. split; [done|].
  unfold update_status. unfold_M. lookups. rewrite !decide_True by done.
  unfold Popen_poll, new_handle. cbn [returncode pid]. rewrite Hex, Hport.
  lookups. by rewrite !decide_True.
Qed.

Lemma retry_after_error_witness :
  (start E_no_marker "welcome" st_fresh).1 = returned false
  ∧ statuses (start E_no_marker "welcome" st_fresh).2 !! "welcome" = Some error
  ∧ (start E_busy "welcome" (start E_no_marker "welcome" st_fresh).2).1 = returned true
  ∧ statuses (start E_busy "welcome" (start E_no_marker "welcome" st_fresh).2).2 !! "welcome"
    = Some building
  ∧ statuses (update_statuses E_busy
                (start E_busy "welcome" (start E_no_marker "welcome" st_fresh).2).2).2
      !! "welcome" = Some running
  ∧ processes (update_statuses E_busy
                 (start E_busy "welcome" (start E_no_marker "welcome" st_fresh).2).2).2
      !! "welcome" = Some (new_handle 4242).
Proof.
  apply (retry_after_error E_no_marker E_busy E_busy st_fresh "welcome"
           (mk "Welcome" 8080 "WELCOME" "MAIN") 4242).
  - apply reach_init.
  - apply list_elem_of_here.
  - left. by vm_compute.
  - by vm_compute.
  - by vm_compute.
  - by vm_compute.
  - by vm_compute.
  - by vm_compute.
Defined.

(** ** More on [update_statuses] *)

Lemma update_status_frame E pid info st :
  trace (update_status E pid info st).2 = trace st
  ∧ logs (update_status E pid info st).2 = logs st
  ∧ threads (update_status E pid info st).2 = threads st
  ∧ ∀ id proc, processes (update_status E pid info st).2 !! id = Some proc →
               processes st !! id = Some proc.
Proof.
  unfold update_status. unfold_M.
  destruct (processes st !! pid) as [proc|] eqn:Hp.
  - destruct (Popen_poll E proc) as [rc|].
    + destruct (decide (rc = 0)); lookups; repeat split; try done;
        by intros id p [_ H]%lookup_delete_Some.
    + destruct (_port_open E (port info)); lookups; done.
  - destruct (statuses st !! pid) as [s|]; [|done].
    destruct (decide (s = unmanaged)).
    + destruct (_port_open E (port info)); lookups; done.
    + destruct (bool_decide (s = stopped) && _port_open E (port info)); lookups; done.
Qed.

Lemma update_statuses_frame E st :
  trace (update_statuses E st).2 = trace st
  ∧ logs (update_statuses E st).2 = logs st
  ∧ threads (update_statuses E st).2 = threads st
  ∧ ∀ id proc, processes (update_statuses E st).2 !! id = Some proc →
               processes st !! id = Some proc.
Proof.
  apply (preserves_for_each
    (λ s, trace s = trace st ∧ logs s = logs st ∧ threads s = threads st
          ∧ ∀ id proc, processes s !! id = Some proc → processes st !! id = Some proc));
    [|done].
  intros [pid info] s (Ht & Hl & Hth & Hp).
  destruct (update_status_frame E pid info s) as (Ht' & Hl' & Hth' & Hp').
  rewrite Ht', Hl', Hth'. repeat split; try done.
  intros id proc H. by apply Hp, Hp'.
Qed.


(** X8.  A pass of [update_statuses] only observes: it sends no signal,
    spawns and waits for nothing, writes no log and starts no thread,
    and it never creates a handle (it can only release handles). *)
Theorem update_statuses_only_observes E st :
  trace (update_statuses E st).2 = trace st
  ∧ logs (update_statuses E st).2 = logs st
  ∧ threads (update_statuses E st).2 = threads st
  ∧ ∀ id proc, processes (update_statuses E st).2 !! id = Some proc →
               processes st !! id = Some proc.
Proof. apply update_statuses_frame. Qed.

Lemma update_status_alive E pid info st proc :
  processes st !! pid = Some proc →
  Popen_poll E proc = None →
  update_status E pid info st
  = (returned tt,
     with_statuses <[pid := if _port_open E (port info) then running else building]> st).
Proof.
  intros Hp Hpoll. unfold update_status. unfold_M. rewrite Hp, Hpoll.
  by destruct (_port_open E (port info)).
Qed.

Lemma update_status_free E pid info st s :
  processes st !! pid = None →
  statuses st !! pid = Some s →
  update_status E pid info st
  = (returned tt,
     match s with
     | unmanaged =>
         if _port_open E (port info) then st else with_statuses <[pid := stopped]> st
     | stopped =>
         if _port_open E (port info) then with_statuses <[pid := unmanaged]> st else st
     | _ => st
     end).
Proof.
  intros Hp Hs. unfold update_status. unfold_M. rewrite Hp, Hs.
  destruct s; cbn; by destruct (_port_open E (port info)).
Qed.

Lemma update_status_missing E pid info st :
  processes st !! pid = None →
  statuses st !! pid = None →
  update_status E pid info st = (raised (KeyError pid), st).
Proof. intros Hp Hs. unfold update_status. unfold_M. by rewrite Hp, Hs. Qed.

Lemma update_status_stable E pid info st :
  (∀ proc, processes st !! pid = Some proc → Popen_poll E proc = None) →
  entry (update_status E pid info (update_status E pid info st).2).2 pid
  = entry (update_status E pid info st).2 pid.
Proof.
  intros Hpoll. destruct (processes st !! pid) as [proc|] eqn:Hp.
  - rewrite (update_status_alive E pid info st proc Hp (Hpoll _ eq_refl)). cbn [snd].
    erewrite update_status_alive; [|lookups; exact Hp|by apply Hpoll].
    lookups. by rewrite !decide_True.
  - destruct (statuses st !! pid) as [s|] eqn:Hs.
    2: { rewrite (update_status_missing E pid info st Hp Hs). cbn [snd].
         by rewrite (update_status_missing E pid info st Hp Hs). }
    rewrite (update_status_free E pid info st s Hp Hs). cbn [snd].
    destruct s; try by rewrite (update_status_free E pid info st _ Hp Hs).
    + destruct (_port_open E (port info)) eqn:Hport.
      * erewrite update_status_free; [|lookups; exact Hp|lookups; by rewrite decide_True].
        by rewrite Hport.
      * rewrite (update_status_free E pid info st _ Hp Hs). by rewrite Hport.
    + destruct (_port_open E (port info)) eqn:Hport.
      * rewrite (update_status_free E pid info st _ Hp Hs). by rewrite Hport.
      * erewrite update_status_free; [|lookups; exact Hp|lookups; by rewrite decide_True].
        by rewrite Hport.
Qed.

Lemma state_eq (a b : state) :
  (∀ id, entry a id = entry b id) →
  logs a = logs b → trace a = trace b → threads a = threads b →
  a = b.
Proof.
  intros He Hl Ht Hth. destruct a, b. cbn in *. subst.
  f_equal; apply map_eq; intros id; specialize (He id); unfold entry in He;
    cbn in He; congruence.
Qed.

(** X9.  Reconciliation is stable.  At an observation point, when no
    child of the supervisor has exited, a second pass of
    [update_statuses] on the same observations changes nothing: it
    returns, and the state is the one the first pass left. *)
Theorem update_statuses_is_stable E st :
  reachable st →
  (∀ id proc, processes st !! id = Some proc → Popen_poll E proc = None) →
  update_statuses E (update_statuses E st).2 = update_statuses E st.
Proof.
  intros Hreach Halive.
  pose proof (reachable_consistent _ Hreach) as Hc.
  pose proof (update_statuses_consistent E st Hc) as Hc1.
  assert (∀ l : list (string * project), ∀ s, consistent s →
            NoDup l.*1 →
            (∀ pid info, (pid, info) ∈ l → is_Some (assoc pid PROJECTS)) →
            (for_each l (λ '(pid, info), update_status E pid info) s).1 = returned tt)
    as Hret.
  { intros l s Hs Hnd Hreg. by apply update_loop. }
  assert (∀ pid info, (pid, info) ∈ PROJECTS → is_Some (assoc pid PROJECTS)) as Hreg.
  { intros p i Hp. by eapply registered_in. }
  destruct (update_statuses E st) as [r s1] eqn:Hrun1. cbn [snd] in *.
  destruct (update_statuses E s1) as [r2 s2] eqn:Hrun2.
  pose proof (Hret PROJECTS st Hc PROJECTS_NoDup Hreg) as Hr1.
  pose proof (Hret PROJECTS s1 Hc1 PROJECTS_NoDup Hreg) as Hr2.
  unfold update_statuses in Hrun1, Hrun2. rewrite Hrun1 in Hr1. rewrite Hrun2 in Hr2.
  cbn [fst snd] in *. subst r r2. f_equal.
  destruct (update_statuses_frame E s1) as (Ht & Hl & Hth & _).
  unfold update_statuses in Ht, Hl, Hth. rewrite Hrun2 in Ht, Hl, Hth. cbn [snd] in *.
  apply state_eq; try done. intros id.
  destruct (decide (id ∈ PROJECTS.*1)) as [Hid|Hid].
  - apply list_elem_of_fmap in Hid as ([pid info] & -> & Hin). cbn [fst].
    destruct (update_statuses_entry E s1 pid info Hc1 Hin) as [_ He2].
    destruct (update_statuses_entry E st pid info Hc Hin) as [_ He1].
    unfold update_statuses in He1, He2. rewrite Hrun1 in He1. rewrite Hrun2 in He2.
    cbn [snd] in *. rewrite He2, He1.
    rewrite (update_status_local E pid info s1 (update_status E pid info st).2 He1).
    apply update_status_stable. intros proc. apply Halive.
  - pose proof (for_each_frame (λ x : string * project, x.1) PROJECTS
                  (λ '(pid, info), update_status E pid info) s1 id) as Hfr.
    rewrite Hrun2 in Hfr. apply Hfr; [|done].
    intros [p i]. apply update_status_touches_only.
Qed.

Lemma update_statuses_is_stable_witness :
  update_statuses E_busy (update_statuses E_busy st_welcome_building).2
  = update_statuses E_busy st_welcome_building.
Proof.
  apply update_statuses_is_stable.
  - apply reach_start, reach_init.
  - intros id proc Hproc. destruct (decide (id = "welcome")) as [->|Hne].
    + vm_compute in Hproc. by injection Hproc as <-.
    + pose proof (start_touches_only E_quiet "welcome" st_fresh id Hne) as Hfr.
      pose proof (f_equal (λ e, e.1.1) Hfr) as Hp. unfold entry in Hp. cbn [fst snd] in Hp.
      unfold st_welcome_building in Hproc. rewrite Hp in Hproc.
      assert (processes st_fresh = ∅) as Hempty by by vm_compute.
      by rewrite Hempty, lookup_empty in Hproc.
Defined.

(** ** The staggered loops and the group operations *)

Lemma staggered_app evs1 evs2 :
  staggered evs1 = true → staggered evs2 = true → staggered (evs1 ++ evs2) = true.
Proof.
  induction evs1 as [|ev evs1 IH]; [done|]. intros H1 H2.
  destruct ev; cbn [app staggered] in *; try by apply IH.
  destruct evs1 as [|ev' evs1']; [done|].
  destruct ev'; try done. cbn [app].
  destruct secs as [|[]|]; try done. by apply IH.
Qed.

Lemma start_trace E id st :
  ∃ evs, trace (start E id st).2 = trace st ++ evs
         ∧ (evs = [] ∨ (∃ cwd prt log child, evs = [EvPopen cwd prt log child]
                         ∧ (start E id st).1 = returned true)).
Proof.
  destruct (start_paths E id st); cbn [fst snd]; lookups;
    try (exists []; rewrite app_nil_r; by eauto).
  eexists. split; [done|]. right. by eauto 10.
Qed.

(** X10.  The thread body of [start_all] and [start_group] staggers its
    spawns: in what it adds to the trace every spawn is directly
    followed by a sleep of one second, so no two children are launched
    without a second between them. *)
Theorem run_task_is_staggered E t st :
  ∃ evs, trace (run_task E t st).2 = trace st ++ evs ∧ staggered evs = true.
Proof.
  unfold run_task. generalize PROJECTS. intros l. revert st.
  induction l as [|[pid info] l IH]; intros st.
  { exists []. by rewrite app_nil_r. }
  cbn [for_each]. unfold mbind at 1, M_bind at 1.
  assert (∃ evs, trace ((st ← get;
            when (match t with
                  | staggered_all => true
                  | staggered_group g => bool_decide (group info = g)
                  end && bool_decide (statuses st !! pid = Some stopped))
              (start E pid ;; emit (EvSleep 1))) st).2 = trace st ++ evs
          ∧ staggered evs = true) as (evs1 & Ht1 & Hs1).
  { unfold mbind at 1, M_bind at 1, get at 1.
    destruct (_ && _); cbn [when]; [|exists []; by rewrite app_nil_r].
    unfold mbind, M_bind, emit, modify.
    destruct (start_trace E pid st) as (evs & Ht & Hevs).
    destruct (start E pid st) as [[b|e] st1]; cbn [fst snd] in *.
    - exists (evs ++ [EvSleep 1]). lookups. rewrite Ht, app_assoc. split; [done|].
      destruct Hevs as [->|(? & ? & ? & ? & -> & _)]; done.
    - exists evs. split; [done|].
      destruct Hevs as [->|(? & ? & ? & ? & _ & ?)]; done. }
  destruct ((st ← get; when _ _) st) as [[[]|e] st1]; cbn [snd] in *.
  - destruct (IH st1) as (evs2 & Ht2 & Hs2). exists (evs1 ++ evs2).
    rewrite Ht2, Ht1, app_assoc. split; [done|]. by apply staggered_app.
  - by exists evs1.
Qed.

(** X11.  The thread body of [start_all] and [start_group] starts only
    projects that are [stopped]: whatever it does, the supervisor's
    entry for a project in any other status (in particular a project in
    [error]) is left as it was. *)
Theorem run_task_skips_what_is_not_stopped E t st id :
  statuses st !! id ≠ Some stopped →
  entry (run_task E t st).2 id = entry st id.
Proof.
  intros Hs.
  apply (preserves_for_each (λ s, entry s id = entry st id)); [|done].
  intros [pid info] s Hinv. unfold mbind at 1, M_bind at 1, get at 1.
  destruct (decide (id = pid)) as [->|Hne].
  - assert (statuses s !! pid = statuses st !! pid) as Heq.
    { pose proof (f_equal (λ e, e.1.2) Hinv) as H. by unfold entry in H. }
    rewrite bool_decide_eq_false_2, andb_false_r by (by rewrite Heq). done.
  - rewrite <- Hinv. destruct (_ && _); cbn [when]; [|done].
    unfold mbind, M_bind, emit, modify.
    pose proof (start_touches_only E pid s id Hne) as Hfr.
    by destruct (start E pid s) as [[b|e] s1].
Qed.

Lemma run_task_skips_what_is_not_stopped_witness :
  entry (run_task E_quiet staggered_all st_welcome_error).2 "welcome"
  = entry st_welcome_error "welcome".
Proof.
  apply run_task_skips_what_is_not_stopped. by vm_compute.
Defined.

Lemma NoDup_fst_unique {A} (l : list (string * A)) k v1 v2 :
  NoDup l.*1 → (k, v1) ∈ l → (k, v2) ∈ l → v1 = v2.
Proof.
  intros Hnd H1 H2.
  pose proof (assoc_in_NoDup l k v1 Hnd H1). pose proof (assoc_in_NoDup l k v2 Hnd H2).
  congruence.
Qed.

(** X12.  [stop_group] and the thread body of [start_group] stay inside
    their group: the supervisor's entry for a project of another group
    is left as it was. *)
Theorem group_operations_stay_in_group E g st pid info :
  (pid, info) ∈ PROJECTS →
  group info ≠ g →
  entry (stop_group E g st).2 pid = entry st pid
  ∧ entry (run_task E (staggered_group g) st).2 pid = entry st pid.
Proof.
  intros Hin Hg. split.
  - apply (preserves_for_each_in (λ s, entry s pid = entry st pid)); [|done].
    intros [p i] Hp s Hinv. unfold mbind at 1, M_bind at 1, get at 1.
    destruct (decide (pid = p)) as [<-|Hne].
    + rewrite (NoDup_fst_unique _ _ _ _ PROJECTS_NoDup Hp Hin).
      by rewrite bool_decide_eq_false_2.
    + rewrite <- Hinv. destruct (_ && _); cbn [when]; [|done].
      unfold mbind, M_bind.
      pose proof (stop_touches_only E p s pid Hne) as Hfr.
      by destruct (stop E p s) as [[b|e] s1].
  - apply (preserves_for_each_in (λ s, entry s pid = entry st pid)); [|done].
    intros [p i] Hp s Hinv. unfold mbind at 1, M_bind at 1, get at 1.
    destruct (decide (pid = p)) as [<-|Hne].
    + rewrite (NoDup_fst_unique _ _ _ _ PROJECTS_NoDup Hp Hin).
      by rewrite bool_decide_eq_false_2.
    + rewrite <- Hinv. destruct (_ && _); cbn [when]; [|done].
      unfold mbind, M_bind, emit, modify.
      pose proof (start_touches_only E p s pid Hne) as Hfr.
      by destruct (start E p s) as [[b|e] s1].
Qed.

Lemma group_operations_stay_in_group_witness :
  entry (stop_group E_busy "TOOLS" st_taken).2 "welcome" = entry st_taken "welcome"
  ∧ entry (run_task E_busy (staggered_group "TOOLS") st_taken).2 "welcome"
    = entry st_taken "welcome".
Proof.
  apply (group_operations_stay_in_group E_busy "TOOLS" st_taken "welcome"
           (mk "Welcome" 8080 "WELCOME" "MAIN")).
  - apply list_elem_of_here.
  - by vm_compute.
Defined.

(** ** [get_status_json] *)

Lemma dict_get_set {K V} `{EqDecision K} (k s : K) (v : V) d :
  dict_get s (dict_set k v d) = if decide (k = s) then Some v else dict_get s d.
Proof.
  induction d as [|[k' v'] d IH]; cbn.
  - by destruct (decide (k = s)).
  - destruct (decide (k' = k)) as [->|Hne]; cbn.
    + by destruct (decide (k = s)).
    + rewrite IH. destruct (decide (k' = s)) as [->|]; [|done].
      by rewrite decide_False.
Qed.

Lemma dict_set_keys {K V} `{EqDecision K} (k : K) (v : V) d :
  is_Some (dict_get k d) → (dict_set k v d).*1 = d.*1.
Proof.
  induction d as [|[k' v'] d IH]; cbn; [by intros [? [=]]|].
  destruct (decide (k' = k)) as [->|Hne]; [done|].
  intros H. cbn. by rewrite IH.
Qed.

Lemma dict_set_fresh {K V} `{EqDecision K} (k : K) (v : V) d :
  k ∉ d.*1 → dict_set k v d = d ++ [(k, v)].
Proof.
  induction d as [|[k' v'] d IH]; cbn; [done|].
  intros [Hne Hd]%not_elem_of_cons. rewrite decide_False by done. by rewrite IH.
Qed.

Lemma foldl_status_json st (l : list (string * project)) counts projects :
  (∀ s, is_Some (dict_get s counts)) →
  NoDup (projects.*1 ++ l.*1) →
  ((foldl (status_json_step st) (counts, projects) l).1).*1 = counts.*1
  ∧ (∀ s, dict_get s (foldl (status_json_step st) (counts, projects) l).1
        = Some (default 0 (dict_get s counts)
                + Z.of_nat (length (filter (λ x, default stopped (statuses st !! x.1) = s) l))))
  ∧ (foldl (status_json_step st) (counts, projects) l).2
    = projects ++
      ((λ x : string * project,
          (x.1, {| js_name := name x.2; js_port := port x.2; js_group := group x.2;
                   js_status := default stopped (statuses st !! x.1);
                   js_exitCode := mjoin (exit_codes st !! x.1) |})) <$> l).
Proof.
  revert counts projects. induction l as [|[pid info] l IH]; intros counts projects Hall Hnd.
  { cbn. split; [done|]. split; [|by rewrite app_nil_r].
    intros s. destruct (Hall s) as [v ->]. cbn [default]. by rewrite Z.add_0_r. }
  cbn [foldl status_json_step].
  set (s0 := default stopped (statuses st !! pid)).
  set (counts1 := dict_set s0 _ counts). set (projects1 := dict_set pid _ projects).
  assert ((pid ∉ projects.*1) ∧ NoDup ((projects1.*1) ++ (l.*1))) as [Hfresh Hnd1].
  { rewrite fmap_cons in Hnd. apply NoDup_app in Hnd as (Hp & Hdisj & Hl).
    apply NoDup_cons in Hl as [Hpid Hl].
    assert (pid ∉ projects.*1) as Hfresh.
    { intros Hin. apply (Hdisj _ Hin). by left. }
    split; [done|]. subst projects1. rewrite dict_set_fresh by done.
    rewrite fmap_app. cbn. rewrite <- app_assoc. cbn.
    apply NoDup_app. split; [done|]. split; [|by apply NoDup_cons].
    intros x Hx. apply Hdisj in Hx. done. }
  assert (∀ s, is_Some (dict_get s counts1)) as Hall1.
  { intros s. subst counts1. rewrite dict_get_set. by destruct (decide (s0 = s)). }
  destruct (IH counts1 projects1 Hall1 Hnd1) as (Hk & Hc & Hp).
  split; [|split].
  - rewrite Hk. subst counts1. by apply dict_set_keys.
  - intros s. rewrite Hc. f_equal. subst counts1. rewrite dict_get_set.
    rewrite filter_cons. cbn [fst]. fold s0.
    destruct (decide (s0 = s)) as [->|Hne];
      rewrite ?decide_True, ?decide_False by done; cbn [default length];
      unfold id; lia.
  - rewrite Hp. subst projects1. rewrite dict_set_fresh by done.
    rewrite <- app_assoc. done.
Qed.

Lemma status_partition st (l : list (string * project)) :
  (Z.of_nat (length (filter (λ x, default stopped (statuses st !! x.1) = running) l))
   + Z.of_nat (length (filter (λ x, default stopped (statuses st !! x.1) = building) l))
   + Z.of_nat (length (filter (λ x, default stopped (statuses st !! x.1) = stopped) l))
   + Z.of_nat (length (filter (λ x, default stopped (statuses st !! x.1) = error) l))
   + Z.of_nat (length (filter (λ x, default stopped (statuses st !! x.1) = unmanaged) l))
   = Z.of_nat (length l))%Z.
Proof.
  induction l as [|x l IH]; [done|]. rewrite !filter_cons.
  destruct (default stopped (statuses st !! x.1));
    repeat case_decide; try done; cbn [length]; lia.
Qed.

Lemma counts_shape (counts : list (status * Z)) (f : status → Z) :
  counts.*1 = [running; building; stopped; error; unmanaged] →
  (∀ s, dict_get s counts = Some (f s)) →
  counts = [(running, f running); (building, f building); (stopped, f stopped);
            (error, f error); (unmanaged, f unmanaged)].
Proof.
  intros Hk Hc.
  pose proof (Hc running) as H1. pose proof (Hc building) as H2.
  pose proof (Hc stopped) as H3. pose proof (Hc error) as H4.
  pose proof (Hc unmanaged) as H5.
  destruct counts as [|[k1 v1] [|[k2 v2] [|[k3 v3] [|[k4 v4] [|[k5 v5] [|]]]]]];
    try discriminate Hk.
  cbn in Hk. injection Hk as -> -> -> -> ->.
  cbn in H1, H2, H3, H4, H5.
  injection H1 as ->. injection H2 as ->. injection H3 as ->.
  injection H4 as ->. injection H5 as ->. done.
Qed.

(** X13.  The counts of the status document tally the projects: the
    dictionary has the five statuses as keys, in the order of the
    source, each with the number of projects of the registry reported
    in that status, and the five numbers add up to the number of
    projects. *)
Theorem get_status_json_counts st :
  (js_counts (get_status_json st)).*1 = [running; building; stopped; error; unmanaged]
  ∧ (∀ s, dict_get s (js_counts (get_status_json st))
        = Some (Z.of_nat (length (filter
                  (λ x, default stopped (statuses st !! x.1) = s) PROJECTS))))
  ∧ foldr Z.add 0 (js_counts (get_status_json st)).*2 = Z.of_nat (length PROJECTS).
Proof.
  unfold get_status_json.
  destruct (foldl_status_json st PROJECTS counts_zero []) as (Hk & Hc & _).
  { intros []; cbn; by eauto. }
  { cbn [fmap list_fmap app]. apply PROJECTS_NoDup. }
  destruct (foldl (status_json_step st) (counts_zero, []) PROJECTS) as [counts projects].
  cbn [fst snd js_counts] in *.
  assert (∀ s, dict_get s counts = Some (Z.of_nat (length (filter
              (λ x, default stopped (statuses st !! x.1) = s) PROJECTS)))) as Hc'.
  { intros s. rewrite Hc. f_equal.
    assert (default 0 (dict_get s counts_zero) = 0) as -> by by destruct s.
    apply Z.add_0_l. }
  split; [done|]. split; [done|].
  rewrite (counts_shape counts _ Hk Hc'). cbn [fmap list_fmap snd foldr].
  pose proof (status_partition st PROJECTS) as Hsum. lia.
Qed.

Lemma dict_get_fmap_NoDup {V} (f : string * project → V) (l : list (string * project)) k v :
  NoDup l.*1 → (k, v) ∈ l →
  dict_get k ((λ x, (x.1, f x)) <$> l) = Some (f (k, v)).
Proof.
  induction l as [|[k' v'] l IH]; [by intros _ ?%elem_of_nil|].
  rewrite fmap_cons. intros [Hk Hnd]%NoDup_cons [[= -> ->]|Hin]%elem_of_cons; cbn.
  - by rewrite decide_True.
  - rewrite decide_False; [by apply IH|].
    intros ->. apply Hk, list_elem_of_fmap. by exists (k, v).
Qed.

(** X14.  The status document lists the projects of the registry, one
    entry each, in registry order.  At an observation point the status
    it reports for a project is the stored one (the default is never
    used), the exit code is the stored one, and a project is reported
    [building] or [running] exactly when the supervisor holds its
    handle. *)
Theorem get_status_json_projects st pid info :
  reachable st →
  (pid, info) ∈ PROJECTS →
  (js_projects (get_status_json st)).*1 = PROJECTS.*1
  ∧ js_groups (get_status_json st) = GROUP_ORDER
  ∧ ∃ s,
      statuses st !! pid = Some s
      ∧ dict_get pid (js_projects (get_status_json st))
        = Some {| js_name := name info; js_port := port info; js_group := group info;
                  js_status := s; js_exitCode := mjoin (exit_codes st !! pid) |}
      ∧ (s = building ∨ s = running ↔ is_Some (processes st !! pid)).
Proof.
  intros Hreach Hin. unfold get_status_json.
  destruct (foldl_status_json st PROJECTS counts_zero []) as (_ & _ & Hp).
  { intros []; cbn; by eauto. }
  { cbn [fmap list_fmap app]. apply PROJECTS_NoDup. }
  destruct (foldl (status_json_step st) (counts_zero, []) PROJECTS) as [counts projects].
  cbn [fst snd js_projects js_groups] in *. rewrite app_nil_l in Hp. subst projects.
  split; [|split; [done|]].
  { rewrite <- list_fmap_compose. by apply list_fmap_ext. }
  destruct (reachable_consistent _ Hreach pid) as [Hh Ht].
  destruct Ht as [s Hs]; [by eapply registered_in|].
  exists s. split; [done|]. split.
  - rewrite (dict_get_fmap_NoDup
               (λ x, {| js_name := name x.2; js_port := port x.2; js_group := group x.2;
                        js_status := default stopped (statuses st !! x.1);
                        js_exitCode := mjoin (exit_codes st !! x.1) |})
               PROJECTS pid info PROJECTS_NoDup Hin).
    cbn [fst snd]. by rewrite Hs.
  - rewrite Hh, Hs. split; intros [H|H]; [left|right|left|right]; congruence.
Qed.

Lemma get_status_json_projects_witness :
  (js_projects (get_status_json st_welcome_building)).*1 = PROJECTS.*1
  ∧ js_groups (get_status_json st_welcome_building) = GROUP_ORDER
  ∧ ∃ s,
      statuses st_welcome_building !! "welcome" = Some s
      ∧ dict_get "welcome" (js_projects (get_status_json st_welcome_building))
        = Some {| js_name := "Welcome"; js_port := 8080; js_group := "MAIN";
                  js_status := s;
                  js_exitCode := mjoin (exit_codes st_welcome_building !! "welcome") |}
      ∧ (s = building ∨ s = running ↔ is_Some (processes st_welcome_building !! "welcome")).
Proof.
  apply (get_status_json_projects st_welcome_building "welcome"
           (mk "Welcome" 8080 "WELCOME" "MAIN")).
  - apply reach_start, reach_init.
  - apply list_elem_of_here.
Defined.

(** ** [get_log] *)

Lemma last_lines_positive {A} (lines : Z) (all_lines : list A) :
  0 < lines →
  last_lines lines all_lines = drop (length all_lines - Z.to_nat lines) all_lines.
Proof.
  intros Hpos. unfold last_lines. rewrite decide_True by lia. f_equal. lia.
Qed.

(** X15.  [get_log] gives the empty string for a project without a log
    file.  Otherwise, for a positive [lines], it joins the last [lines]
    lines of the file (all of them when the file has fewer); but for
    [lines = 0] it gives the whole file, not nothing.  (The file is
    taken to be readable: the [except OSError] branch, which also gives
    the empty string, has no counterpart here.) *)
Theorem get_log_tail E id lines st :
  match logs st !! log_file_of E id with
  | None => get_log E id lines st = ""
  | Some all_lines =>
      (0 < lines →
       ∃ kept,
         kept `suffix_of` all_lines
         ∧ length kept = Nat.min (Z.to_nat lines) (length all_lines)
         ∧ get_log E id lines st = foldr (λ a b, a +:+ b) "" kept)
      ∧ (lines = 0 → get_log E id lines st = foldr (λ a b, a +:+ b) "" all_lines)
  end.
Proof.
  unfold get_log. destruct (logs st !! log_file_of E id) as [all_lines|]; [|done].
  split.
  - intros Hpos. exists (drop (length all_lines - Z.to_nat lines) all_lines).
    split; [apply suffix_drop|]. split; [rewrite length_drop; lia|].
    by rewrite last_lines_positive.
  - by intros ->.
Qed.

Lemma get_log_tail_witness :
  (0 < 1 →
   ∃ kept,
     kept `suffix_of` ["old line"]
     ∧ length kept = Nat.min (Z.to_nat 1) (length ["old line"])
     ∧ get_log E_quiet "welcome" 1 st_old_log = foldr (λ a b, a +:+ b) "" kept)
  ∧ (1 = 0 → get_log E_quiet "welcome" 1 st_old_log = foldr (λ a b, a +:+ b) "" ["old line"]).
Proof.
  pose proof (get_log_tail E_quiet "welcome" 1 st_old_log) as H.
  assert (logs st_old_log !! log_file_of E_quiet "welcome" = Some ["old line"]) as Hlog
    by by vm_compute.
  rewrite Hlog in H. exact H.
Defined.

Lemma child_writes_append path lines st pre :
  logs st !! path = Some pre →
  logs (for_each lines (child_writes path) st).2 !! path = Some (pre ++ lines).
Proof.
  revert pre st. induction lines as [|l lines IH]; intros pre st Hpre; cbn [for_each].
  - unfold mret, M_ret. cbn [snd]. by rewrite app_nil_r.
  - unfold mbind, M_bind, child_writes, modify.
    rewrite (IH (pre ++ [l])); [by rewrite <- app_assoc|].
    lookups. by rewrite decide_True, Hpre.
Qed.

(** X16.  Right after a [start] that returned [True], [get_log] of the
    project is empty, whatever the log held; and once the child has
    written some lines, [get_log] (with a positive [lines]) shows the
    last of those lines and nothing of an earlier run. *)
Theorem get_log_after_start E id st st' n written :
  start E id st = (returned true, st') →
  0 < n →
  get_log E id n st' = ""
  ∧ get_log E id n (for_each written (child_writes (log_file_of E id)) st').2
    = foldr (λ a b, a +:+ b) "" (drop (length written - Z.to_nat n) written).
Proof.
  intros Hrun Hn.
  assert (logs st' !! log_file_of E id = Some []) as Hlog.
  { destruct (start_paths E id st) as [| | | | |info child Hk Hs Hm Hp];
      try discriminate Hrun.
    injection Hrun as <-. lookups. by rewrite decide_True. }
  unfold get_log. rewrite Hlog, (child_writes_append _ written st' [] Hlog).
  rewrite app_nil_l, !last_lines_positive by done. done.
Qed.

Lemma get_log_after_start_witness :
  get_log E_quiet "welcome" 100 (start E_quiet "welcome" st_old_log).2 = ""
  ∧ get_log E_quiet "welcome" 100
      (for_each ["a"; "b"] (child_writes (log_file_of E_quiet "welcome"))
         (start E_quiet "welcome" st_old_log).2).2
    = foldr (λ a b, a +:+ b) "" (drop (length ["a"; "b"] - Z.to_nat 100) ["a"; "b"]).
Proof.
  apply (get_log_after_start E_quiet "welcome" st_old_log).
  - by destruct (start E_quiet "welcome" st_old_log) as [r s] eqn:H;
      apply (f_equal fst) in H; vm_compute in H; cbn [snd]; subst r.
  - lia.
Defined.

Lemma last_lines_nil {A} (lines : Z) : last_lines lines (@nil A) = [].
Proof. unfold last_lines. case_decide; apply drop_nil. Qed.

(** X17.  What a failing [start] does to the log depends on where it
    fails: a [start] refused for a missing marker leaves every file as
    it was, but a [start] whose [Popen] fails (FileNotFoundError, or
    another OSError that propagates) has already opened the log for
    writing, so the log of the earlier run is gone although nothing was
    started. *)
Theorem failed_start_and_the_log E id info st :
  assoc id PROJECTS = Some info →
  statuses st !! id = Some stopped ∨ statuses st !! id = Some error →
  (has_marker E info = false → logs (start E id st).2 = logs st)
  ∧ (has_marker E info = true →
     popen E (project_dir E info) (port info) = file_not_found
     ∨ popen E (project_dir E info) (port info) = os_error →
     (start E id st).1 ≠ returned true
     ∧ logs (start E id st).2 = <[log_file_of E id := []]> (logs st)
     ∧ ∀ n, get_log E id n (start E id st).2 = "").
Proof.
  intros Hk Hs%status_in_ready. split.
  - intros Hm. by rewrite (start_no_marker _ _ _ _ Hk Hs Hm).
  - intros Hm [Hp|Hp].
    + rewrite (start_file_not_found _ _ _ _ Hk Hs Hm Hp). lookups.
      split; [done|]. split; [done|]. intros n. unfold get_log. lookups.
      by rewrite decide_True, last_lines_nil.
    + rewrite (start_os_error _ _ _ _ Hk Hs Hm Hp). lookups.
      split; [done|]. split; [done|]. intros n. unfold get_log. lookups.
      by rewrite decide_True, last_lines_nil.
Qed.

Lemma failed_start_and_the_log_witness :
  (has_marker E_permission_denied (mk "Welcome" 8080 "WELCOME" "MAIN") = false →
   logs (start E_permission_denied "welcome" st_old_log).2 = logs st_old_log)
  ∧ ((start E_permission_denied "welcome" st_old_log).1 ≠ returned true
     ∧ logs (start E_permission_denied "welcome" st_old_log).2
       = <[log_file_of E_permission_denied "welcome" := []]> (logs st_old_log)
     ∧ ∀ n, get_log E_permission_denied "welcome" n
              (start E_permission_denied "welcome" st_old_log).2 = "").
Proof.
  destruct (failed_start_and_the_log E_permission_denied "welcome"
              (mk "Welcome" 8080 "WELCOME" "MAIN") st_old_log) as [H1 H2].
  - by vm_compute.
  - left. by vm_compute.
  - split; [exact H1|]. apply H2; [by vm_compute|]. right. by vm_compute.
Defined.

(** ** The HTTP handler *)

Lemma py_split_nonempty sep s : py_split sep s ≠ [].
Proof. destruct s as [|c s]; cbn; [done|]. case_decide; [done|]. by destruct (py_split sep s). Qed.

Lemma py_split_no_sep sep s :
  has_char sep s = false → py_split sep s = [s].
Proof.
  induction s as [|c s IH]; cbn; [done|].
  intros [Hc Hs]%orb_false_iff. apply bool_decide_eq_false in Hc.
  rewrite decide_False by done. by rewrite IH.
Qed.

Lemma py_split_app sep a b :
  py_split sep (a +:+ String sep b) = py_split sep a ++ py_split sep b.
Proof.
  induction a as [|c a IH]; simpl.
  - by rewrite decide_True.
  - case_decide; [by rewrite IH|]. rewrite IH.
    pose proof (py_split_nonempty sep a). by destruct (py_split sep a).
Qed.

Lemma py_split_segments sep s :
  Forall (λ x, has_char sep x = false) (py_split sep s).
Proof.
  induction s as [|c s IH]; cbn; [by repeat constructor|].
  case_decide; [by constructor|].
  destruct (py_split sep s) as [|h t]; [by repeat constructor; cbn; rewrite bool_decide_eq_false_2|].
  apply Forall_cons in IH as [Hh Ht]. constructor; [|done].
  cbn. by rewrite bool_decide_eq_false_2.
Qed.

Lemma py_last_no_sep path : has_char "/" (py_last (py_split "/" path)) = false.
Proof.
  pose proof (py_split_segments "/" path) as Hall.
  pose proof (py_split_nonempty "/" path) as Hne. unfold py_last.
  destruct (last (py_split "/" path)) as [x|] eqn:Hlast.
  - cbn. apply last_Some_elem_of in Hlast. by apply (proj1 (Forall_forall _ _) Hall).
  - by apply last_None in Hlast.
Qed.

Lemma py_last_route (pre id : string) :
  has_char "/" id = false →
  py_last (py_split "/" (pre +:+ String "/" id)) = id.
Proof.
  intros Hid. rewrite py_split_app, (py_split_no_sep _ id Hid).
  unfold py_last. by rewrite last_snoc.
Qed.

(** X18.  The id a request path is routed with, [path.split("/")[-1]],
    never contains a slash, whatever the path; and for a path that ends
    in a slash followed by a slash-free id, it is that id. *)
Theorem last_path_segment :
  (∀ path, has_char "/" (py_last (py_split "/" path)) = false)
  ∧ (∀ pre id, has_char "/" id = false →
       py_last (py_split "/" (pre +:+ String "/" id)) = id).
Proof. split; [apply py_last_no_sep | apply py_last_route]. Qed.

Lemma last_path_segment_witness :
  py_last (py_split "/" ("/api/logs" +:+ String "/" "welcome")) = "welcome".
Proof.
  apply (proj2 last_path_segment "/api/logs" "welcome"). reflexivity.
Defined.

Lemma prefix_append p s : String.prefix p (p +:+ s) = true.
Proof.
  induction p as [|c p IH]; simpl; [by destruct s|].
  by destruct (Ascii.ascii_dec c c).
Qed.

(** X19.  A GET of [/api/logs/...] never reads outside the log
    directory and never changes the supervisor: whatever the path, the
    answer is the tail of the log file of a slash-free id, and the state
    is as before.  For [/api/logs/<id>] with a slash-free id that is the
    log of [id]. *)
Theorem do_GET_logs E st :
  (∀ path, String.prefix "/api/logs/" path = true →
     ∃ id, has_char "/" id = false
           ∧ do_GET E path st = (returned (resp_log (get_log E id 100 st)), st))
  ∧ (∀ id, has_char "/" id = false →
       do_GET E ("/api/logs/" +:+ id) st
       = (returned (resp_log (get_log E id 100 st)), st)).
Proof.
  assert (∀ path, String.prefix "/api/logs/" path = true →
            do_GET E path st
            = (returned (resp_log (get_log E (py_last (py_split "/" path)) 100 st)), st))
    as Hroute.
  { intros path Hpre. unfold do_GET. rewrite Hpre.
    destruct (decide (path = "/")) as [->|_]; [done|].
    destruct (decide (path = "/api/status")) as [->|_]; done. }
  split.
  - intros path Hpre. exists (py_last (py_split "/" path)).
    split; [apply py_last_no_sep|by apply Hroute].
  - intros id Hid. rewrite Hroute by apply prefix_append.
    change ("/api/logs/" +:+ id) with ("/api/logs" +:+ String "/" id).
    by rewrite (py_last_route "/api/logs" id Hid).
Qed.

Lemma do_GET_logs_witness :
  do_GET E_quiet ("/api/logs/" +:+ "welcome") st_old_log
  = (returned (resp_log (get_log E_quiet "welcome" 100 st_old_log)), st_old_log).
Proof.
  apply (proj2 (do_GET_logs E_quiet st_old_log) "welcome"). reflexivity.
Defined.

(** X20.  A POST of [/api/start/<id>] or [/api/stop/<id>], for a
    slash-free id, is exactly [start(id)] or [stop(id)]: the state is
    the one the method leaves, the answer is [ok] with the method's
    result, and an exception of the method propagates. *)
Theorem do_POST_start_stop E id st :
  has_char "/" id = false →
  do_POST E ("/api/start/" +:+ id) st
  = (match (start E id st).1 with
     | returned ok => returned (resp_ok ok)
     | raised e => raised e
     end, (start E id st).2)
  ∧ do_POST E ("/api/stop/" +:+ id) st
    = (match (stop E id st).1 with
       | returned ok => returned (resp_ok ok)
       | raised e => raised e
       end, (stop E id st).2).
Proof.
  intros Hid. split.
  - unfold do_POST.
    assert (String.prefix "/api/start-all" ("/api/start/" +:+ id) = false) as -> by done.
    assert (String.prefix "/api/stop-all" ("/api/start/" +:+ id) = false) as -> by done.
    assert (String.prefix "/api/start-group/" ("/api/start/" +:+ id) = false) as -> by done.
    assert (String.prefix "/api/stop-group/" ("/api/start/" +:+ id) = false) as -> by done.
    rewrite prefix_append.
    change ("/api/start/" +:+ id) with ("/api/start" +:+ String "/" id).
    rewrite (py_last_route "/api/start" id Hid). unfold mbind, M_bind.
    by destruct (start E id st) as [[ok|e] st1].
  - unfold do_POST.
    assert (String.prefix "/api/start-all" ("/api/stop/" +:+ id) = false) as -> by done.
    assert (String.prefix "/api/stop-all" ("/api/stop/" +:+ id) = false) as -> by done.
    assert (String.prefix "/api/start-group/" ("/api/stop/" +:+ id) = false) as -> by done.
    assert (String.prefix "/api/stop-group/" ("/api/stop/" +:+ id) = false) as -> by done.
    assert (String.prefix "/api/start/" ("/api/stop/" +:+ id) = false) as -> by done.
    rewrite prefix_append.
    change ("/api/stop/" +:+ id) with ("/api/stop" +:+ String "/" id).
    rewrite (py_last_route "/api/stop" id Hid). unfold mbind, M_bind.
    by destruct (stop E id st) as [[ok|e] st1].
Qed.

Lemma do_POST_start_stop_witness :
  do_POST E_quiet ("/api/start/" +:+ "no-such-project") st_fresh
  = (match (start E_quiet "no-such-project" st_fresh).1 with
     | returned ok => returned (resp_ok ok)
     | raised e => raised e
     end, (start E_quiet "no-such-project" st_fresh).2)
  ∧ do_POST E_quiet ("/api/stop/" +:+ "no-such-project") st_fresh
    = (match (stop E_quiet "no-such-project" st_fresh).1 with
       | returned ok => returned (resp_ok ok)
       | raised e => raised e
       end, (stop E_quiet "no-such-project" st_fresh).2).
Proof.
  apply (do_POST_start_stop E_quiet "no-such-project" st_fresh). reflexivity.
Defined.

Lemma replace_pct20_other c rest :
  c ≠ "%"%char → replace_pct20 (String c rest) = String c (replace_pct20 rest).
Proof.
  intros Hc. destruct c as [[] [] [] [] [] [] [] []]; try done.
Qed.

Lemma prefix_spec p s : String.prefix p s = true ↔ ∃ b, s = p +:+ b.
Proof.
  revert s. induction p as [|c p IH]; intros s.
  { destruct s; split; by eauto. }
  destruct s as [|c' s]; [split; [done|by intros [b [=]]]|].
  cbn [String.prefix]. destruct (ascii_dec c c') as [<-|Hne].
  - rewrite IH. split; [intros [b ->]; by exists b|intros [b [= ->]]; by exists b].
  - split; [done|]. intros [b [= <- _]]. done.
Qed.

(** [has_sub p s] says that [p] occurs in [s]. *)
Lemma has_sub_spec p s : has_sub p s = true ↔ ∃ a b, s = a +:+ p +:+ b.
Proof.
  induction s as [|c s IH].
  - cbn [has_sub]. rewrite orb_false_r, prefix_spec. split.
    + intros [b ->]. by exists EmptyString, b.
    + intros [[|c a] [b Hb]]; [by exists b|done].
  - change (has_sub p (String c s)) with (String.prefix p (String c s) || has_sub p s).
    rewrite orb_true_iff, prefix_spec, IH. split.
    + intros [[b ->]|(a & b & ->)]; [by exists EmptyString, b|by exists (String c a), b].
    + intros ([|c' a] & b & Hb); [left; by exists b|right].
      injection Hb as -> ->. by exists a, b.
Qed.

Lemma replace_pct20_step c rest :
  String.prefix "%20" (String c rest) = false →
  replace_pct20 (String c rest) = String c (replace_pct20 rest).
Proof.
  intros Hpre. destruct (decide (c = "%"%char)) as [->|Hc];
    [|by apply replace_pct20_other].
  destruct rest as [|c2 rest]; [done|].
  destruct (decide (c2 = "2"%char)) as [->|H2].
  2: { destruct c2 as [[] [] [] [] [] [] [] []]; try done. }
  destruct rest as [|c3 rest]; [done|].
  destruct (decide (c3 = "0"%char)) as [->|H3].
  { change (String "%" (String "2" (String "0" rest))) with ("%20" +:+ rest) in Hpre.
    by rewrite prefix_append in Hpre. }
  destruct c3 as [[] [] [] [] [] [] [] []]; try done.
Qed.

(** Where [%20] does not occur, nothing is replaced: every other escape
    is kept as it is. *)
Lemma replace_pct20_keeps s :
  has_sub "%20" s = false → replace_pct20 s = s.
Proof.
  induction s as [|c s IH]; [done|].
  change (has_sub "%20" (String c s))
    with (String.prefix "%20" (String c s) || has_sub "%20" s).
  intros [Hpre Hs]%orb_false_iff. rewrite replace_pct20_step by done. by rewrite IH.
Qed.

Lemma prefix_pct20_straddle c a b :
  String.prefix "%20" (String c a) = false →
  String.prefix "%20" (String c (a +:+ "%20" +:+ b)) = false.
Proof.
  cbn [String.prefix]. destruct (ascii_dec "%" c) as [_|]; [|done].
  destruct a as [|c2 a]; [intros _; by vm_compute|].
  change (String c2 a +:+ "%20" +:+ b) with (String c2 (a +:+ "%20" +:+ b)).
  cbn [String.prefix]. destruct (ascii_dec "2" c2) as [_|]; [|done].
  destruct a as [|c3 a]; [intros _; by vm_compute|].
  change (String c3 a +:+ "%20" +:+ b) with (String c3 (a +:+ "%20" +:+ b)).
  cbn [String.prefix]. destruct (ascii_dec "0" c3) as [_|]; [|done].
  by destruct a.
Qed.

(** The first [%20] becomes a space, and the replacement goes on behind
    it. *)
Lemma replace_pct20_first a b :
  has_sub "%20" a = false →
  replace_pct20 (a +:+ "%20" +:+ b) = a +:+ " " +:+ replace_pct20 b.
Proof.
  induction a as [|c a IH]; [done|].
  change (has_sub "%20" (String c a))
    with (String.prefix "%20" (String c a) || has_sub "%20" a).
  intros [Hpre Hs]%orb_false_iff.
  change (String c a +:+ "%20" +:+ b) with (String c (a +:+ "%20" +:+ b)).
  rewrite replace_pct20_step by by apply prefix_pct20_straddle. by rewrite IH.
Qed.

Lemma has_char_app c a b : has_char c (a +:+ b) = has_char c a || has_char c b.
Proof.
  induction a as [|c' a IH]; [done|]. simpl. by rewrite IH, orb_assoc.
Qed.


Lemma group_route_run E g st :
  has_char "/" g = false →
  do_POST E ("/api/start-group/" +:+ g) st
  = (returned (resp_ok true), (start_group (replace_pct20 g) st).2)
  ∧ do_POST E ("/api/stop-group/" +:+ g) st
    = (match (stop_group E (replace_pct20 g) st).1 with
       | returned _ => returned (resp_ok true)
       | raised e => raised e
       end, (stop_group E (replace_pct20 g) st).2).
Proof.
  intros Hs. split.
  - unfold do_POST.
    assert (String.prefix "/api/start-all" ("/api/start-group/" +:+ g) = false) as -> by done.
    assert (String.prefix "/api/stop-all" ("/api/start-group/" +:+ g) = false) as -> by done.
    rewrite prefix_append.
    change ("/api/start-group/" +:+ g) with ("/api/start-group" +:+ String "/" g).
    by rewrite (py_last_route "/api/start-group" _ Hs).
  - unfold do_POST.
    assert (String.prefix "/api/start-all" ("/api/stop-group/" +:+ g) = false) as -> by done.
    assert (String.prefix "/api/stop-all" ("/api/stop-group/" +:+ g) = false) as -> by done.
    assert (String.prefix "/api/start-group/" ("/api/stop-group/" +:+ g) = false) as ->
      by done.
    rewrite prefix_append.
    change ("/api/stop-group/" +:+ g) with ("/api/stop-group" +:+ String "/" g).
    rewrite (py_last_route "/api/stop-group" _ Hs).
    unfold mbind, M_bind.
    by destruct (stop_group E (replace_pct20 g) st) as [[[]|e] st1].
Qed.

(** X21.  The group routes decode [%20], and only that, in the last
    path segment.  A POST of [/api/start-group/<seg>] or
    [/api/stop-group/<seg>], for a slash-free segment, is
    [start_group(g)] or [stop_group(g)] answered with [ok: true] (an
    exception of [stop_group] propagates), where [g] is the segment
    with [%20] replaced: a segment in which [%20] does not occur is
    taken as it is, whatever other escapes it holds, and in [A%20B],
    where [%20] does not occur in [A], the [%20] becomes one space and
    the replacement goes on in [B]. *)
Theorem do_POST_group_routes E st :
  (∀ seg, has_char "/" seg = false →
     do_POST E ("/api/start-group/" +:+ seg) st
     = (returned (resp_ok true), (start_group (replace_pct20 seg) st).2)
     ∧ do_POST E ("/api/stop-group/" +:+ seg) st
       = (match (stop_group E (replace_pct20 seg) st).1 with
          | returned _ => returned (resp_ok true)
          | raised e => raised e
          end, (stop_group E (replace_pct20 seg) st).2))
  ∧ (∀ seg, has_sub "%20" seg = false → replace_pct20 seg = seg)
  ∧ (∀ a b, has_sub "%20" a = false →
       replace_pct20 (a +:+ "%20" +:+ b) = a +:+ " " +:+ replace_pct20 b)
  ∧ (∀ seg, has_char "/" seg = false → has_sub "%20" seg = false →
       do_POST E ("/api/start-group/" +:+ seg) st
       = (returned (resp_ok true), (start_group seg st).2)
       ∧ do_POST E ("/api/stop-group/" +:+ seg) st
         = (match (stop_group E seg st).1 with
            | returned _ => returned (resp_ok true)
            | raised e => raised e
            end, (stop_group E seg st).2))
  ∧ (∀ a b, has_char "/" a = false → has_char "/" b = false →
       has_sub "%20" a = false → has_sub "%20" b = false →
       do_POST E ("/api/start-group/" +:+ a +:+ "%20" +:+ b) st
       = (returned (resp_ok true), (start_group (a +:+ " " +:+ b) st).2)
       ∧ do_POST E ("/api/stop-group/" +:+ a +:+ "%20" +:+ b) st
         = (match (stop_group E (a +:+ " " +:+ b) st).1 with
            | returned _ => returned (resp_ok true)
            | raised e => raised e
            end, (stop_group E (a +:+ " " +:+ b) st).2)).
Proof.
  split; [intros seg Hs; by apply group_route_run|].
  split; [apply replace_pct20_keeps|].
  split; [apply replace_pct20_first|].
  split.
  - intros seg Hs Hsub.
    destruct (group_route_run E seg st Hs) as [H1 H2].
    by rewrite (replace_pct20_keeps seg Hsub) in H1, H2.
  - intros a b Ha Hb Hsa Hsb.
    destruct (group_route_run E (a +:+ "%20" +:+ b) st) as [H1 H2].
    { rewrite !has_char_app, Ha, Hb. done. }
    by rewrite (replace_pct20_first a b Hsa), (replace_pct20_keeps b Hsb) in H1, H2.
Qed.

Lemma do_POST_group_routes_witness :
  do_POST E_busy ("/api/start-group/" +:+ "LEARN" +:+ "%20" +:+ "HUB") st_taken
  = (returned (resp_ok true), (start_group "LEARN HUB" st_taken).2)
  ∧ do_POST E_busy ("/api/stop-group/" +:+ "MAIN") st_taken
    = (match (stop_group E_busy "MAIN" st_taken).1 with
       | returned _ => returned (resp_ok true)
       | raised e => raised e
       end, (stop_group E_busy "MAIN" st_taken).2)
  ∧ do_POST E_busy ("/api/start-group/" +:+ "A%2BB%2") st_taken
    = (returned (resp_ok true), (start_group "A%2BB%2" st_taken).2)
  ∧ replace_pct20 ("%2" +:+ "%20" +:+ "%41") = "%2 %41".
Proof.
  destruct (do_POST_group_routes E_busy st_taken) as (_ & Hkeep & Hfirst & Hplain & Hspace).
  split; [apply (Hspace "LEARN" "HUB"); reflexivity|].
  split; [apply (Hplain "MAIN"); reflexivity|].
  split; [apply (Hplain "A%2BB%2"); reflexivity|].
  rewrite (Hfirst "%2" "%41") by reflexivity.
  by rewrite (Hkeep "%41") by reflexivity.
Defined.
